(** * Evaluation_OFFdata: token cleaning and precision / recall / F1

    A shallow embedding of the scoring routines of the OCR evaluation
    notebook [Evaluation_OFFdata.ipynb]: [clean_word], [clean_text],
    [precision], [recall], [F1score], [top210] and the CSV cache of the
    detections.  The functions are given twice: on the values of their
    arguments, and on a store of list objects (module [Store]), where it
    can be said that they write to none of their arguments.

    Conventions of the embedding.
    - A Python [str] is a Rocq [string]; its characters are the code points
      U+0000 to U+00FF, on which [str.lower], [str.isspace] and the
      ordering of [sorted] are the ones written below.
    - A Python function that may raise returns an [option]; [None] stands
      for the exception ([IndexError], [ZeroDivisionError], [TypeError],
      [re.error]).
    - Python's true division [/] is exact division on [Q]; the rounding of
      the binary floating-point result is not modelled. *)

From Stdlib Require Import Ascii String NArith ZArith QArith Lia Lqa.
From stdpp Require Import base option list strings numbers gmap sorting.

Open Scope Z_scope.

(** ** Characters and the [str] methods used by the notebook *)

Module Py.

(** The code point of a character, [ord(c)]. *)
Definition ord (c : ascii) : N := N_of_ascii c.

Definition in_range (lo hi : N) (c : ascii) : bool :=
  ((lo <=? ord c) && (ord c <=? hi))%N.

(** [c.isspace()] on U+0000..U+00FF: TAB..CR, FS..US, SPACE, NEL, NBSP. *)
Definition isspace (c : ascii) : bool :=
  in_range 9 13 c || in_range 28 32 c || (ord c =? 133)%N || (ord c =? 160)%N.

(** [c.lower()] on U+0000..U+00FF: [A-Z] and the Latin-1 capitals
    U+00C0..U+00DE (the multiplication sign U+00D7 apart) move up by 32. *)
Definition lower_char (c : ascii) : ascii :=
  if in_range 65 90 c || (in_range 192 222 c && negb (ord c =? 215)%N)
  then ascii_of_N (ord c + 32)
  else c.

Fixpoint lower (s : string) : string :=
  match s with
  | "" => ""
  | String c s' => String (lower_char c) (lower s')
  end.

Fixpoint lstrip (s : string) : string :=
  match s with
  | "" => ""
  | String c s' => if isspace c then lstrip s' else s
  end.

Fixpoint rstrip (s : string) : string :=
  match s with
  | "" => ""
  | String c s' =>
      match rstrip s' with
      | "" => if isspace c then "" else String c ""
      | r => String c r
      end
  end.

(** [s.strip()] *)
Definition strip (s : string) : string := rstrip (lstrip s).

Definition flush (cur : string) : list string :=
  match cur with "" => [] | _ => [cur] end.

Fixpoint split_go (cur s : string) : list string :=
  match s with
  | "" => flush cur
  | String c s' =>
      if isspace c then flush cur ++ split_go "" s'
      else split_go (cur +:+ String c "") s'
  end.

(** [s.split()]: the maximal runs of non-whitespace characters. *)
Definition split (s : string) : list string := split_go "" s.

Fixpoint split_on_go (sep : ascii) (cur s : string) : list string :=
  match s with
  | "" => [cur]
  | String c s' =>
      if decide (c = sep) then cur :: split_on_go sep "" s'
      else split_on_go sep (cur +:+ String c "") s'
  end.

(** [s.split(sep)] for a one-character separator. *)
Definition split_on (sep : ascii) (s : string) : list string :=
  split_on_go sep "" s.

(** [l[i]] with Python's negative indices; [None] is [IndexError]. *)
Definition getitem {A} (l : list A) (i : Z) : option A :=
  if decide (0 <= i) then l !! Z.to_nat i
  else if decide (- Z.of_nat (length l) <= i) then l !! Z.to_nat (Z.of_nat (length l) + i)
  else None.

(** Iterating over a [str] yields its characters as one-character strings. *)
Fixpoint chars (s : string) : list string :=
  match s with
  | "" => []
  | String c s' => String c "" :: chars s'
  end.

(** The characters of [s] that satisfy [p], in order. *)
Fixpoint keep (p : ascii → bool) (s : string) : string :=
  match s with
  | "" => ""
  | String c s' => if p c then String c (keep p s') else keep p s'
  end.

(** [s] with every character [c] replaced by [f c]. *)
Fixpoint translate (f : ascii → ascii) (s : string) : string :=
  match s with
  | "" => ""
  | String c s' => String (f c) (translate f s')
  end.

(** Every character of [s] satisfies [p]. *)
Fixpoint all (p : ascii → bool) (s : string) : bool :=
  match s with
  | "" => true
  | String c s' => p c && all p s'
  end.

(** Some character of [s] satisfies [p]. *)
Fixpoint any (p : ascii → bool) (s : string) : bool :=
  match s with
  | "" => false
  | String c s' => p c || any p s'
  end.

(** [string.punctuation] *)
Definition punctuation : string :=
  "!" +:+ String "034"%char "#$%&'()*+,-./:;<=>?@[\]^_`{|}~".

End Py.

(** ** The fragment of [re] used by the notebook

    The three patterns of the notebook are one character set, optionally
    followed by [+].  The set is parsed the way [re] parses it: a backslash
    and the character after it are one token, a token followed by [-] and
    another token is a range, and the first unescaped [[]]] after at least
    one item closes the set. *)

Module Re.

Inductive token :=
| TChar (c : ascii)
| TEsc (c : ascii).

#[global] Instance token_eq_dec : EqDecision token.
Proof. solve_decision. Defined.

Fixpoint tokenize (p : string) : option (list token) :=
  match p with
  | "" => Some []
  | String "\" "" => None
  | String "\" (String c p') => (TEsc c ::.) <$> tokenize p'
  | String c p' => (TChar c ::.) <$> tokenize p'
  end.

Inductive item :=
| Lit (c : ascii)
| Range (lo hi : ascii).

Definition alnum (c : ascii) : bool :=
  Py.in_range 48 57 c || Py.in_range 65 90 c || Py.in_range 97 122 c.

(** The literal a token stands for inside a set; an escaped letter or
    digit ([\d], [\w], [\x41] ...) is outside the fragment. *)
Definition literal (t : token) : option ascii :=
  match t with
  | TChar c => Some c
  | TEsc c => if alnum c then None else Some c
  end.

Fixpoint parse_items (first : bool) (ts : list token) : option (list item * list token) :=
  match ts with
  | [] => None
  | t :: rest =>
      if decide (t = TChar "]" ∧ first = false) then Some ([], rest) else
      c1 ← literal t;
      match rest with
      | TChar "-" :: [] => None
      | TChar "-" :: that :: rest' =>
          if decide (that = TChar "]") then Some ([Lit c1; Lit "-"], rest') else
          c2 ← literal that;
          if (Py.ord c2 <? Py.ord c1)%N then None else
          '(its, out) ← parse_items false rest';
          Some (Range c1 c2 :: its, out)
      | _ =>
          '(its, out) ← parse_items false rest;
          Some (Lit c1 :: its, out)
      end
  end.

Record regex := Regex {
  negate : bool;
  items : list item;
  plus : bool
}.

Definition compile (p : string) : option regex :=
  ts ← tokenize p;
  match ts with
  | TChar "[" :: ts1 =>
      let '(neg, ts2) :=
        match ts1 with
        | TChar "^" :: ts2 => (true, ts2)
        | _ => (false, ts1)
        end in
      '(its, out) ← parse_items true ts2;
      match out with
      | [] => Some (Regex neg its false)
      | [TChar "+"] => Some (Regex neg its true)
      | _ => None
      end
  | _ => None
  end.

Definition item_matches (c : ascii) (it : item) : bool :=
  match it with
  | Lit d => bool_decide (c = d)
  | Range lo hi => Py.in_range (Py.ord lo) (Py.ord hi) c
  end.

Definition matches (r : regex) (c : ascii) : bool :=
  xorb (negate r) (existsb (item_matches c) (items r)).

(** Replace every match, scanning left to right.  With [+] a match is a
    maximal run of characters of the set ([in_run] records that the
    previous character belonged to the match being replaced); without it
    every character of the set is a match of its own. *)
Fixpoint sub_go (r : regex) (repl : string) (in_run : bool) (s : string) : string :=
  match s with
  | "" => ""
  | String c s' =>
      if matches r c then
        if plus r && in_run then sub_go r repl true s'
        else repl +:+ sub_go r repl true s'
      else String c (sub_go r repl false s')
  end.

(** [re.sub(pattern, repl, s)] for a replacement without escapes. *)
Definition sub (pattern repl s : string) : option string :=
  r ← compile pattern;
  Some (sub_go r repl false s).

End Re.

(** ** Token cleaning *)

(** [clean_word(word)] *)
Definition clean_word (word : string) : option string :=
  let c_word := Py.strip (Py.lower word) in
  c_word ← Re.sub "[^a-zA-Z]+" "" c_word;
  Some (if (String.length c_word <? 2)%nat then "" else c_word).


(** A value passed as [text]: a [str], or a list of [str]. *)
Inductive pytext :=
| PStr (s : string)
| PList (l : list string).

(** Truth value of a [str], as [filter(None, ...)] tests it. *)
Definition truthy (s : string) : bool := bool_decide (s ≠ "").

(** [sorted(l)] on a list of [str]: ascending code-point order. *)
Definition sorted (l : list string) : list string := merge_sort String.le l.

(** [clean_text(text, split)], for a given iteration order [set_iter] of
    Python sets (the order depends on the hashes of the elements). *)
Definition clean_text_iter (set_iter : gset string → list string)
    (text : pytext) (split : bool) : option (list string) :=
  c_text ←
    (if negb split then
       mapM clean_word (match text with PStr s => Py.chars s | PList l => l end)
     else
       match text with
       | PStr s =>
           c_text ← Re.sub "[0-9]" " " s;
           c_text ← Re.sub ("[" +:+ Py.punctuation +:+ "]") " " c_text;
           mapM clean_word (Py.split c_text)
       | PList _ => None
       end);
  Some (sorted (filter (λ w, truthy w) (set_iter (list_to_set c_text)))).

Definition clean_text : pytext → bool → option (list string) :=
  clean_text_iter elements.

(** ** Precision, recall and F1 *)

(** [sum(bs)] for a list of [bool]: the number of [True]. *)
Definition pysum (bs : list bool) : Z := foldr (λ b n, Z.b2z b + n) 0 bs.

(** [a / b] on numbers; [None] is [ZeroDivisionError]. *)
Definition truediv (a b : Q) : option Q :=
  if Qeq_bool b 0 then None else Some (a / b)%Q.

(** [precision(ing_lst, i, ingredients)] *)
Definition precision (ing_lst : list (list string)) (i : Z)
    (ingredients : list (list string)) : option Q :=
  detected_words ← Py.getitem ing_lst i;
  actual_ingredients ← Py.getitem ingredients i;
  if decide (length detected_words = 0%nat) then Some 0%Q
  else
    let tp := pysum (map (λ dw, bool_decide (dw ∈ actual_ingredients)) detected_words) in
    let p := Z.of_nat (length detected_words) in
    truediv (inject_Z tp) (inject_Z p).

(** [recall(ing_lst, i, ingredients)] *)
Definition recall (ing_lst : list (list string)) (i : Z)
    (ingredients : list (list string)) : option Q :=
  detected_words ← Py.getitem ing_lst i;
  actual_ingredients ← Py.getitem ingredients i;
  if decide (length detected_words = 0%nat) then Some 0%Q
  else
    let tp := pysum (map (λ dw, bool_decide (dw ∈ actual_ingredients)) detected_words) in
    let a := Z.of_nat (length actual_ingredients) in
    truediv (inject_Z tp) (inject_Z a).

(** [F1score(ing_lst, i, ingredients)] *)
Definition F1score (ing_lst : list (list string)) (i : Z)
    (ingredients : list (list string)) : option Q :=
  p ← precision ing_lst i ingredients;
  r ← recall ing_lst i ingredients;
  if Qeq_bool p 0 && Qeq_bool r 0 then Some 0%Q
  else truediv (2 * p * r) (p + r).

(** ** Selecting the best detections *)

(** [top210(scores)].  The globals [imgs] and [ingredients] are passed
    explicitly, and so is numpy's [argsort], whose order on equal keys is
    not fixed.  [s = np.array([scores])] has the single row [scores];
    [(-s).argsort()[0][:210]] keeps the first 210 positions of the
    ascending order of the negated scores.  The three [print] calls write
    [len(imgs210)], [len(a_ings)] and the average of [scores[i]] over the
    selected indices; only the reads they perform are kept. *)
Definition top210 {Img : Type} (argsort : list Q → list nat)
    (imgs : list Img) (ingredients : list (list string)) (scores : list Q)
    : option (list Img * list (list string)) :=
  let inds := take 210 (argsort (map Qopp scores)) in
  imgs210 ← mapM (λ i, imgs !! i) inds;
  a_ings ← mapM (λ i, ingredients !! i) inds;
  _ ← mapM (λ i, scores !! i) inds;
  Some (imgs210, a_ings).

(** ** The CSV cache of the detections *)

Module Repr.

Definition hex_digit (n : N) : ascii :=
  if (n <? 10)%N then ascii_of_N (48 + n) else ascii_of_N (87 + n).

(** [c.isprintable()] on U+0000..U+00FF. *)
Definition isprintable (c : ascii) : bool :=
  Py.in_range 32 126 c || (Py.in_range 161 255 c && negb (Py.ord c =? 173)%N).

Fixpoint contains (c : ascii) (s : string) : bool :=
  match s with
  | "" => false
  | String d s' => bool_decide (c = d) || contains c s'
  end.

Definition escape (quote c : ascii) : string :=
  if bool_decide (c = quote) || bool_decide (c = "\"%char) then String "\" (String c "")
  else if (Py.ord c =? 9)%N then "\t"
  else if (Py.ord c =? 10)%N then "\n"
  else if (Py.ord c =? 13)%N then "\r"
  else if isprintable c then String c ""
  else String "\" (String "x" (String (hex_digit (Py.ord c / 16))
                                 (String (hex_digit (Py.ord c mod 16)) ""))).

Fixpoint escape_all (quote : ascii) (s : string) : string :=
  match s with
  | "" => ""
  | String c s' => escape quote c +:+ escape_all quote s'
  end.

(** [repr(s)] for a [str]. *)
Definition repr (s : string) : string :=
  let quote : ascii :=
    if contains "'" s && negb (contains "034" s) then "034"%char else "'"%char in
  String quote (escape_all quote s +:+ String quote "").

Fixpoint join (sep : string) (l : list string) : string :=
  match l with
  | [] => ""
  | [x] => x
  | x :: l' => x +:+ sep +:+ join sep l'
  end.

(** [str(l)] for a list of [str]. *)
Definition str_list (l : list string) : string :=
  "[" +:+ join ", " (map repr l) +:+ "]".

End Repr.

Module Csv.

Definition dquote : ascii := "034"%char.
Definition newline : ascii := "010"%char.
Definition cr : ascii := "013"%char.

(** The characters that force quotes: the delimiter, the quote and the
    line terminator, which is the line feed. *)
Definition special (c : ascii) : bool :=
  bool_decide (c = ","%char) || bool_decide (c = dquote)
  || bool_decide (c = newline).

(** The characters that end a record when it is read. *)
Definition eol (c : ascii) : bool :=
  bool_decide (c = newline) || bool_decide (c = cr).

Fixpoint double_quotes (s : string) : string :=
  match s with
  | "" => ""
  | String c s' =>
      if bool_decide (c = dquote) then String c (String c (double_quotes s'))
      else String c (double_quotes s')
  end.

(** One field of a one-column file, quoted when it has to be. *)
Definition field (s : string) : string :=
  if Py.any special s || bool_decide (s = "")
  then String dquote (double_quotes s +:+ String dquote "")
  else s.

Fixpoint lines (l : list string) : string :=
  match l with
  | [] => ""
  | x :: l' => x +:+ String newline (lines l')
  end.

(** [DataFrame({column: cells}).to_csv(path, index=False)]: the text
    written to the file. *)
Definition to_csv (column : string) (cells : list string) : string :=
  lines (map field (column :: cells)).

Inductive state := Start | Unquoted | Quoted | QuoteSeen.

(** The records of a one-column file; [rows] is the reversed list of the
    records read so far and [cur] the field being read.  Blank lines are
    skipped.  A second column or an unterminated quoted field gives
    [None]. *)
Fixpoint records (st : state) (cur : string) (rows : list string) (s : string)
    : option (list string) :=
  match s with
  | "" =>
      match st with
      | Start => Some (reverse rows)
      | Unquoted | QuoteSeen => Some (reverse (cur :: rows))
      | Quoted => None
      end
  | String c s' =>
      match st with
      | Start =>
          if bool_decide (c = dquote) then records Quoted "" rows s'
          else if eol c then records Start "" rows s'
          else if bool_decide (c = ","%char) then None
          else records Unquoted (String c "") rows s'
      | Unquoted =>
          if eol c then records Start "" (cur :: rows) s'
          else if bool_decide (c = ","%char) then None
          else records Unquoted (cur +:+ String c "") rows s'
      | Quoted =>
          if bool_decide (c = dquote) then records QuoteSeen cur rows s'
          else records Quoted (cur +:+ String c "") rows s'
      | QuoteSeen =>
          if bool_decide (c = dquote) then records Quoted (cur +:+ String c "") rows s'
          else if eol c then records Start "" (cur :: rows) s'
          else if bool_decide (c = ","%char) then None
          else records Unquoted (cur +:+ String c "") rows s'
      end
  end.

(** [pd.read_csv(path)[column]] for a file whose cells are text (the
    cells of the cache are printed lists, which are never read as numbers
    or as missing values). *)
Definition read_csv (column : string) (file : string) : option (list string) :=
  rows ← records Start "" [] file;
  match rows with
  | header :: cells => if decide (header = column) then Some cells else None
  | [] => None
  end.

End Csv.

(** [pyt_output.to_csv('pyt_output.csv', index=False)] with
    [pyt_output = pd.DataFrame({'detected': pyt_ingredients})]: the file. *)
Definition pyt_output (pyt_ingredients : list (list string)) : string :=
  Csv.to_csv "detected" (map Repr.str_list pyt_ingredients).

(** [[[re.sub('[^a-zA-Z]+', '', e) for e in l.split(",")] for l in pyt_data.detected]]
    with [pyt_data = pd.read_csv('pyt_output.csv')]. *)
Definition pyt_ingredients (file : string) : option (list (list string)) :=
  detected ← Csv.read_csv "detected" file;
  mapM (λ l, mapM (λ e, Re.sub "[^a-zA-Z]+" "" e) (Py.split_on "," l)) detected.

(** ** The same functions on a store

    Python lists are objects: a variable holds a reference, and a function
    that receives a list could write to it.  Here the functions are
    followed once more with the lists kept in a store: reading [l[i]],
    [len(l)] or iterating over [l] reads the store, and building a list
    that is bound to a variable or returned allocates a location.  A
    [str] is immutable and is passed as a value. *)

Module Store.

Abbreviation loc := positive.

Inductive obj :=
| OList (items : list string)
| ONested (items : list loc).

Abbreviation heap := (gmap loc obj).

(** A computation reads and extends the store, or raises. *)
Definition M (A : Type) : Type := heap → option (A * heap).

#[global] Instance M_ret : MRet M := λ A a h, Some (a, h).

#[global] Instance M_bind : MBind M := λ A B f m h,
  match m h with
  | Some (a, h') => f a h'
  | None => None
  end.

(** A pure step that may raise. *)
Definition lift {A} (x : option A) : M A := λ h,
  match x with
  | Some a => Some (a, h)
  | None => None
  end.

Definition read_list (l : loc) : M (list string) := λ h,
  match h !! l with
  | Some (OList items) => Some (items, h)
  | _ => None
  end.

Definition read_nested (l : loc) : M (list loc) := λ h,
  match h !! l with
  | Some (ONested items) => Some (items, h)
  | _ => None
  end.

Definition alloc (o : obj) : M loc := λ h,
  let l := fresh (dom h) in Some (l, <[l := o]> h).

(** An argument [text]: a [str] value or a reference to a list of [str]. *)
Inductive textref :=
| RStr (s : string)
| RList (l : loc).

Definition clean_word (word : string) : M string := lift (clean_word word).

Definition clean_text (set_iter : gset string → list string)
    (text : textref) (split : bool) : M loc :=
  c_text ←
    (if negb split then
       ws ← match text with
            | RStr s => mret (Py.chars s)
            | RList l => read_list l
            end;
       cs ← mapM clean_word ws;
       alloc (OList cs)
     else
       match text with
       | RStr s =>
           t1 ← lift (Re.sub "[0-9]" " " s);
           t2 ← lift (Re.sub ("[" +:+ Py.punctuation +:+ "]") " " t1);
           cs ← mapM clean_word (Py.split t2);
           alloc (OList cs)
       | RList _ => lift None
       end);
  cs ← read_list c_text;
  alloc (OList (sorted (filter (λ w, truthy w) (set_iter (list_to_set cs))))).

Definition precision (ing_lst : loc) (i : Z) (ingredients : loc) : M Q :=
  rows ← read_nested ing_lst;
  detected_words ← lift (Py.getitem rows i);
  rows' ← read_nested ingredients;
  actual_ingredients ← lift (Py.getitem rows' i);
  detected ← read_list detected_words;
  if decide (length detected = 0%nat) then mret 0%Q
  else
    actual ← read_list actual_ingredients;
    let tp := pysum (map (λ dw, bool_decide (dw ∈ actual)) detected) in
    let p := Z.of_nat (length detected) in
    lift (truediv (inject_Z tp) (inject_Z p)).

Definition recall (ing_lst : loc) (i : Z) (ingredients : loc) : M Q :=
  rows ← read_nested ing_lst;
  detected_words ← lift (Py.getitem rows i);
  rows' ← read_nested ingredients;
  actual_ingredients ← lift (Py.getitem rows' i);
  detected ← read_list detected_words;
  if decide (length detected = 0%nat) then mret 0%Q
  else
    actual ← read_list actual_ingredients;
    let tp := pysum (map (λ dw, bool_decide (dw ∈ actual)) detected) in
    let a := Z.of_nat (length actual) in
    lift (truediv (inject_Z tp) (inject_Z a)).

Definition F1score (ing_lst : loc) (i : Z) (ingredients : loc) : M Q :=
  p ← precision ing_lst i ingredients;
  r ← recall ing_lst i ingredients;
  if Qeq_bool p 0 && Qeq_bool r 0 then mret 0%Q
  else lift (truediv (2 * p * r) (p + r)).

(** The list of [str] a reference denotes. *)
Definition list_at (h : heap) (l : loc) : option (list string) :=
  match h !! l with
  | Some (OList items) => Some items
  | _ => None
  end.

(** The list of lists of [str] a reference denotes. *)
Definition nested_at (h : heap) (l : loc) : option (list (list string)) :=
  match h !! l with
  | Some (ONested items) => mapM (list_at h) items
  | _ => None
  end.

(** The value of an argument [text]. *)
Definition text_at (h : heap) (t : textref) : option pytext :=
  match t with
  | RStr s => Some (PStr s)
  | RList l => PList <$> list_at h l
  end.

(** Two evaluations have the same outcome: both raise, or both return,
    each leaving every object of its initial store as it was, with results
    that agree. *)
Definition same_outcome {A} (agree : heap → A → heap → A → Prop)
    (h1 : heap) (o1 : option (A * heap)) (h2 : heap) (o2 : option (A * heap)) : Prop :=
  match o1, o2 with
  | None, None => True
  | Some (a1, h1'), Some (a2, h2') => h1 ⊆ h1' ∧ h2 ⊆ h2' ∧ agree h1' a1 h2' a2
  | _, _ => False
  end.

(** Results that are values agree when they are equal. *)
Definition same_value {A} : heap → A → heap → A → Prop := λ _ a1 _ a2, a1 = a2.

(** Results that are references to lists agree when the lists are equal. *)
Definition same_list : heap → loc → heap → loc → Prop := λ h1 l1 h2 l2,
  ∃ items, list_at h1 l1 = Some items ∧ list_at h2 l2 = Some items.

End Store.

(** ** The behaviour the specification describes

    These definitions follow the wording of the specification, not the
    code; the theorems below compare them with the code. *)

Definition is_ascii_letter (c : ascii) : bool :=
  Py.in_range 65 90 c || Py.in_range 97 122 c.

Definition is_lowercase_letter (c : ascii) : bool := Py.in_range 97 122 c.

Definition is_digit (c : ascii) : bool := Py.in_range 48 57 c.

(** A punctuation character is a character of [string.punctuation]. *)
Definition is_punctuation (c : ascii) : bool := Repr.contains c Py.punctuation.

(** "w lowercased with every character that is not an ASCII letter
    removed, except that it returns the empty string whenever that removal
    leaves fewer than 2 characters" *)
Definition spec_clean_word (w : string) : string :=
  let kept := Py.keep is_ascii_letter (Py.lower w) in
  if decide (String.length kept < 2)%nat then "" else kept.

(** "every digit and every punctuation character has been replaced by a
    space" *)
Definition spec_blank (text : string) : string :=
  Py.translate (λ c, if is_digit c || is_punctuation c then " "%char else c) text.

(** "the ascending-sorted list of the distinct non-empty results" of a
    list of results. *)
Definition spec_sorted_distinct (results : list string) : list string :=
  merge_sort String.le (remove_dups (filter (λ w, w ≠ "") results)).

(** [clean_text(text)] as the specification words it: "the
    ascending-sorted list of the distinct non-empty results of clean_word
    applied to the whitespace-separated tokens of text after every digit
    and every punctuation character has been replaced by a space" *)
Definition spec_clean_text_split (text : string) : list string :=
  spec_sorted_distinct (spec_clean_word <$> Py.split (spec_blank text)).

(** [clean_text(l, split=False)] as the specification words it: "the
    ascending-sorted list of the distinct non-empty results of clean_word
    applied to each element" *)
Definition spec_clean_text_list (l : list string) : list string :=
  spec_sorted_distinct (spec_clean_word <$> l).

(** What [argsort] is known to return: the positions of [keys], arranged
    so that the keys they select ascend. *)
Definition is_argsort (argsort : list Q → list nat) : Prop :=
  ∀ keys,
    argsort keys ≡ₚ seq 0 (length keys) ∧
    Sorted Qle ((λ i, nth i keys 0%Q) <$> argsort keys).

(** An [argsort] that keeps equal keys in their original order. *)
Definition stable_argsort (keys : list Q) : list nat :=
  merge_sort (λ i j, Qle_bool (nth i keys 0%Q) (nth j keys 0%Q))
             (seq 0 (length keys)).

(** The score at position [i]. *)
Definition score_at (scores : list Q) (i : nat) : Q := nth i scores 0%Q.

(** [i] comes before [j] in descending score order. *)
Definition score_desc (scores : list Q) (i j : nat) : Prop :=
  (score_at scores j <= score_at scores i)%Q.

(** A cleaned token: at least two characters, all of them lowercase
    ASCII letters. *)
Definition cleaned_token (w : string) : Prop :=
  (2 ≤ String.length w)%nat ∧ Py.all is_lowercase_letter w = true.

(** An iteration order for sets: the elements, each once, in any order. *)
Definition valid_iter (set_iter : gset string → list string) : Prop :=
  ∀ X, set_iter X ≡ₚ elements X.

(** A list in strictly ascending order. *)
Definition strictly_ascending (l : list string) : Prop :=
  Sorted (strict String.le) l.

(** The compiled form of ['[^a-zA-Z]+']. *)
Definition re_nonletters : Re.regex :=
  Re.Regex true [Re.Range "a" "z"; Re.Range "A" "Z"] true.

(** A string without carriage return. *)
Definition no_cr (s : string) : Prop :=
  Py.any (λ c, bool_decide (c = Csv.cr)) s = false.

(** A string made of ASCII letters only. *)
Definition letters_only (w : string) : Prop := Py.all is_ascii_letter w = true.

(** What reloading makes of one saved list: the letters of each piece of
    the printed list between commas. *)
Definition reload_cell (l : list string) : list string :=
  Py.keep is_ascii_letter <$> Py.split_on "," (Repr.str_list l).

(** The compiled form of ['[0-9]']. *)
Definition re_digits : Re.regex := Re.Regex false [Re.Range "0" "9"] false.

(** The compiled form of ['[' + string.punctuation + ']']: the backslash
    of [string.punctuation] escapes the bracket after it and is not an
    item of the set. *)
Definition re_punctuation : Re.regex :=
  Re.Regex false
    [Re.Lit "!"; Re.Lit "034"; Re.Lit "#"; Re.Lit "$"; Re.Lit "%"; Re.Lit "&";
     Re.Lit "'"; Re.Lit "("; Re.Lit ")"; Re.Lit "*"; Re.Lit "+"; Re.Range "," ".";
     Re.Lit "/"; Re.Lit ":"; Re.Lit ";"; Re.Lit "<"; Re.Lit "="; Re.Lit ">";
     Re.Lit "?"; Re.Lit "@"; Re.Lit "["; Re.Lit "]"; Re.Lit "^"; Re.Lit "_";
     Re.Lit "`"; Re.Lit "{"; Re.Lit "|"; Re.Lit "}"; Re.Lit "~"]
    false.

(** "the count of detected tokens that occur in the actual ingredient
    list" *)
Definition hits (detected actual : list string) : Z :=
  Z.of_nat (length (filter (λ dw, dw ∈ actual) detected)).

(** ** The cells around the functions

    The services are called once per image; what they return is taken as
    given.  An entry of [texts['TextDetections']] (Rekognition) or of
    [texts['Blocks']] (Textract) is a dict, of which the fields that hold a
    [str] are kept; [d[k]] on a missing key raises [KeyError]. *)

(** [[text[text_key] if text[type_key]=='WORD' else "" for text in detections]]:
    the condition is evaluated first, and [text[text_key]] only for a
    [WORD]. *)
Definition words (type_key text_key : string)
    (detections : list (gmap string string)) : option (list string) :=
  mapM (λ text : gmap string string,
          ty ← text !! type_key;
          if decide (ty = "WORD") then text !! text_key else Some "")
       detections.

(** [rek_words], one list per response. *)
Definition rek_words (rek_texts : list (list (gmap string string)))
    : option (list (list string)) :=
  mapM (words "Type" "DetectedText") rek_texts.

(** [tex_words], one list per response. *)
Definition tex_words (tex_texts : list (list (gmap string string)))
    : option (list (list string)) :=
  mapM (words "BlockType" "Text") tex_texts.

(** [[clean_text(text, split=False) for text in words]] *)
Definition clean_all (texts : list (list string)) : option (list (list string)) :=
  mapM (λ text, clean_text (PList text) false) texts.

(** [rek_ingredients] before it is saved. *)
Definition rek_ingredients (rek_texts : list (list (gmap string string)))
    : option (list (list string)) :=
  ws ← rek_words rek_texts; clean_all ws.

(** [tex_ingredients] before it is saved. *)
Definition tex_ingredients (tex_texts : list (list (gmap string string)))
    : option (list (list string)) :=
  ws ← tex_words tex_texts; clean_all ws.


(** [pyt_scores = [F1score(pyt_ingredients, i, ingredients) for i in range(n)]] *)
Definition pyt_scores (n : nat) (detected ingredients : list (list string))
    : option (list Q) :=
  mapM (λ i : nat, F1score detected (Z.of_nat i) ingredients) (seq 0 n).

(** [sum(l)] for a list of numbers: the running total starts at 0. *)
Definition qsum (l : list Q) : Q := foldl Qplus 0%Q l.

(** [sum(scores)/n], the printed average. *)
Definition average (scores : list Q) (n : Z) : option Q :=
  truediv (qsum scores) (inject_Z n).

(** [top_scores(top_detections, top_ingredients)].  [zip] stops at the
    shorter of [top_detections] and the three copies of
    [top_ingredients]; the three [print] calls read [top_s[0]],
    [top_s[1]] and [top_s[2]]. *)
Definition top_scores (top_detections : list (list (list string)))
    (top_ingredients : list (list string)) : option (list (list Q)) :=
  top_s ← mapM (λ '(td, ti), mapM (λ i : nat, F1score td (Z.of_nat i) ti) (seq 0 210))
               (zip top_detections (replicate 3 top_ingredients));
  s0 ← top_s !! 0%nat; _ ← average s0 210;
  s1 ← top_s !! 1%nat; _ ← average s1 210;
  s2 ← top_s !! 2%nat; _ ← average s2 210;
  Some top_s.

(** [run_all(imgs, n)].  The three engines are parameters: [pytess]
    returns [box['text']], [rekogn] and [textract] the entries of the
    response.  [elapsed] holds the three values of
    [int(time.time() - start_time)]. *)
Definition run_all {Img : Type}
    (pytess : Img → option (list string))
    (rekogn textract : Img → option (list (gmap string string)))
    (elapsed : Z * Z * Z) (imgs : list Img) (n : Z)
    : option (list (list (list string)) * list Q) :=
  let '(p_elapsed, r_elapsed, t_elapsed) := elapsed in
  p_texts ← mapM pytess imgs;
  p_time ← truediv (inject_Z p_elapsed) (inject_Z n);
  p_ingredients ← clean_all p_texts;
  r_texts ← mapM rekogn imgs;
  r_time ← truediv (inject_Z r_elapsed) (inject_Z n);
  r_words ← mapM (words "Type" "DetectedText") r_texts;
  r_ingredients ← clean_all r_words;
  t_texts ← mapM textract imgs;
  t_time ← truediv (inject_Z t_elapsed) (inject_Z n);
  t_words ← mapM (words "BlockType" "Text") t_texts;
  t_ingredients ← clean_all t_words;
  Some ([p_ingredients; r_ingredients; t_ingredients], [p_time; r_time; t_time]).

(** The texts of the [WORD] entries, in order. *)
Definition word_texts (type_key text_key : string)
    (detections : list (gmap string string)) : list string :=
  omap (λ text : gmap string string,
          if decide (text !! type_key = Some "WORD") then text !! text_key else None)
       detections.

(** What the two replacements of [clean_text] make of one character:
    the digits first, then the members of the punctuation set. *)
Definition blank_fn (c : ascii) : ascii :=
  let c1 := if Re.matches re_digits c then " "%char else c in
  if Re.matches re_punctuation c1 then " "%char else c1.

(** Two lists of results with the same non-empty members. *)
Definition same_words (xs ys : list string) : Prop :=
  ∀ w, w ≠ "" → (w ∈ xs ↔ w ∈ ys).

(** ** Data for the examples *)

(** Two stores that hold the same lists at different locations. *)
Definition example_store1 : gmap positive Store.obj :=
  {[ 1%positive := Store.OList ["Salt,"; "WATER"; "a"];
     2%positive := Store.OList ["salt"; "water"];
     3%positive := Store.OList ["salt"; "sugar"];
     4%positive := Store.ONested [2%positive];
     5%positive := Store.ONested [3%positive] ]}.

Definition example_store2 : gmap positive Store.obj :=
  {[ 10%positive := Store.OList ["Salt,"; "WATER"; "a"];
     11%positive := Store.OList ["salt"; "water"];
     12%positive := Store.OList ["salt"; "sugar"];
     13%positive := Store.ONested [11%positive];
     14%positive := Store.ONested [12%positive] ]}.

(** An iteration order other than that of [elements]. *)
Definition reversed_iter (X : gset string) : list string := reverse (elements X).

(** Scores for an example run: 0, 1, ..., 211. *)
Definition example_scores : list Q := (λ n, inject_Z (Z.of_nat n)) <$> seq 0 212.

(** * Properties *)

#[global] Arguments Re.sub : simpl never.
#[global] Arguments clean_word : simpl never.
#[global] Arguments spec_clean_word : simpl never.
#[global] Arguments spec_sorted_distinct : simpl never.
#[global] Arguments Py.split : simpl never.

(** ** The functions on a few inputs *)

Example clean_word_sugar : clean_word "  Sugar, " = Some "sugar".
Proof. vm_compute. reflexivity. Qed.

Example clean_word_short : clean_word "E-3" = Some "".
Proof. vm_compute. reflexivity. Qed.

Example clean_text_label :
  clean_text (PStr "Water, SUGAR (2%), e330 a water") true = Some ["sugar"; "water"].
Proof. vm_compute. reflexivity. Qed.

Example clean_text_words :
  clean_text (PList ["Water,"; "SUGAR"; ""; "a"; "salt"; "x1y"]) false
  = Some ["salt"; "sugar"; "water"; "xy"].
Proof. vm_compute. reflexivity. Qed.

Example F1score_two_of_three :
  F1score [["salt"; "sugar"; "watet"]] 0 [["salt"; "sugar"; "water"; "yeast"]]
  = Some (96 # 168)%Q.
Proof. reflexivity. Qed.

Example F1score_last_row :
  F1score [["aa"]; ["salt"]] (-1) [["bb"]; ["salt"]] = Some (2 # 2)%Q.
Proof. reflexivity. Qed.

(** With tokens detected and no actual ingredient, [recall] divides by 0. *)
Example recall_no_actual : recall [["salt"]] 0 [[]] = None.
Proof. reflexivity. Qed.

(** ** The regular expressions of the notebook *)

Lemma compile_nonletters : Re.compile "[^a-zA-Z]+" = Some re_nonletters.
Proof. reflexivity. Qed.

Lemma matches_nonletters c : Re.matches re_nonletters c = negb (is_ascii_letter c).
Proof.
  by destruct c as [[] [] [] [] [] [] [] []].
Qed.

Lemma sub_go_delete r b s :
  Re.sub_go r "" b s = Py.keep (λ c, negb (Re.matches r c)) s.
Proof.
  revert b. induction s as [|c s IH]; intros b; simpl; [done|].
  destruct (Re.matches r c); simpl.
  - destruct (Re.plus r && b); simpl; apply IH.
  - by rewrite IH.
Qed.

Lemma keep_ext p q s : (∀ c, p c = q c) → Py.keep p s = Py.keep q s.
Proof. intros E. induction s as [|c s IH]; simpl; [done|]. by rewrite E, IH. Qed.

(** Deleting the matches of [[^a-zA-Z]+] keeps exactly the ASCII letters. *)
Lemma sub_nonletters s :
  Re.sub "[^a-zA-Z]+" "" s = Some (Py.keep is_ascii_letter s).
Proof.
  unfold Re.sub. rewrite compile_nonletters. cbn [mbind option_bind]. f_equal.
  rewrite sub_go_delete. apply keep_ext. intros c.
  rewrite matches_nonletters. apply negb_involutive.
Qed.

(** ** Stripping does not change the letters *)

Lemma space_not_letter c : Py.isspace c = true → is_ascii_letter c = false.
Proof. by destruct c as [[] [] [] [] [] [] [] []]. Qed.

Lemma keep_lstrip s : Py.keep is_ascii_letter (Py.lstrip s) = Py.keep is_ascii_letter s.
Proof.
  induction s as [|c s IH]; simpl; [done|].
  destruct (Py.isspace c) eqn:E; [|done].
  by rewrite (space_not_letter c E).
Qed.

Lemma keep_rstrip s : Py.keep is_ascii_letter (Py.rstrip s) = Py.keep is_ascii_letter s.
Proof.
  induction s as [|c s IH]; simpl; [done|].
  destruct (Py.rstrip s) as [|d r] eqn:R.
  - simpl in IH. rewrite <- IH.
    destruct (Py.isspace c) eqn:E; simpl; [by rewrite (space_not_letter c E)|done].
  - change (Py.keep is_ascii_letter (String c (String d r)))
      with (if is_ascii_letter c then String c (Py.keep is_ascii_letter (String d r))
            else Py.keep is_ascii_letter (String d r)).
    by rewrite IH.
Qed.

Lemma keep_strip s : Py.keep is_ascii_letter (Py.strip s) = Py.keep is_ascii_letter s.
Proof. unfold Py.strip. by rewrite keep_rstrip, keep_lstrip. Qed.

(** The value [clean_word] computes, once the regular expression has
    been replaced by what it keeps. *)
Lemma clean_word_kept (w : string) :
  clean_word w =
    Some (let kept := Py.keep is_ascii_letter (Py.lower w) in
          if (String.length kept <? 2)%nat then "" else kept).
Proof. unfold clean_word. by rewrite sub_nonletters, keep_strip. Qed.

Lemma spec_clean_word_ltb (w : string) :
  spec_clean_word w =
    (let kept := Py.keep is_ascii_letter (Py.lower w) in
     if (String.length kept <? 2)%nat then "" else kept).
Proof.
  unfold spec_clean_word. cbn zeta.
  destruct (String.length _ <? 2)%nat eqn:E; case_decide; try done.
  - apply Nat.ltb_lt in E. lia.
  - apply Nat.ltb_ge in E. lia.
Qed.

(** C5: for every string [w], [clean_word w] returns [w] lowercased with
    every character that is not an ASCII letter removed, and the empty
    string when fewer than 2 characters are left. *)
Theorem clean_word_spec (w : string) : clean_word w = Some (spec_clean_word w).
Proof.
  unfold clean_word, spec_clean_word.
  rewrite sub_nonletters, keep_strip. cbn [mbind option_bind]. f_equal.
  destruct (String.length _ <? 2)%nat eqn:E; case_decide; try done.
  - apply Nat.ltb_lt in E. lia.
  - apply Nat.ltb_ge in E. lia.
Qed.

(** ** Precision, recall and F1 *)

Lemma pysum_hits (d a : list string) :
  pysum (map (λ dw, bool_decide (dw ∈ a)) d) = hits d a.
Proof.
  unfold hits. induction d as [|w d IH]; [done|].
  cbn [map pysum foldr]. fold (pysum (map (λ dw, bool_decide (dw ∈ a)) d)).
  rewrite IH, filter_cons. case_bool_decide; case_decide; try done; simpl; lia.
Qed.

Lemma hits_nonneg d a : 0 <= hits d a.
Proof. unfold hits. lia. Qed.

Lemma hits_le_detected d a : hits d a <= Z.of_nat (length d).
Proof. unfold hits. pose proof (length_filter (λ dw, dw ∈ a) d). lia. Qed.

(** Distinct detected tokens that occur in [a] are at most as many as [a]. *)
Lemma hits_le_actual d a : NoDup d → hits d a <= Z.of_nat (length a).
Proof.
  intros ND. unfold hits. apply inj_le, submseteq_length, NoDup_submseteq.
  - by apply NoDup_filter.
  - intros w [Hw _]%list_elem_of_filter. done.
Qed.

Lemma filter_all {A} (P : A → Prop) `{!∀ x, Decision (P x)} (l : list A) :
  Forall P l → filter P l = l.
Proof.
  induction 1 as [|x l Hx _ IH]; [done|].
  by rewrite filter_cons_True, IH.
Qed.

Lemma hits_self d : hits d d = Z.of_nat (length d).
Proof.
  unfold hits. rewrite filter_all; [done|]. by apply Forall_forall.
Qed.

Lemma inject_Z_eq0 (z : Z) : (inject_Z z == 0)%Q ↔ z = 0.
Proof. unfold Qeq, inject_Z; simpl. lia. Qed.

Lemma truediv_Z (x y : Z) :
  y ≠ 0 → truediv (inject_Z x) (inject_Z y) = Some (inject_Z x / inject_Z y)%Q.
Proof.
  intros Hy. unfold truediv.
  destruct (Qeq_bool (inject_Z y) 0) eqn:E; [|done].
  apply Qeq_bool_iff in E. apply (proj1 (inject_Z_eq0 y)) in E. done.
Qed.

Lemma truediv_Z0 (x : Z) : truediv (inject_Z x) (inject_Z 0) = None.
Proof. reflexivity. Qed.

Lemma length_Z_nonzero {A} (l : list A) : l ≠ [] → Z.of_nat (length l) ≠ 0.
Proof. destruct l; simpl; [done|lia]. Qed.

(** The two functions once both list lookups have succeeded. *)
Lemma precision_at ing_lst i ingredients d a :
  Py.getitem ing_lst i = Some d → Py.getitem ingredients i = Some a →
  precision ing_lst i ingredients =
    if decide (d = []) then Some 0%Q
    else Some (inject_Z (hits d a) / inject_Z (Z.of_nat (length d)))%Q.
Proof.
  intros Hd Ha. unfold precision. rewrite Hd, Ha. simpl.
  destruct d as [|w d]; [done|].
  rewrite decide_False by done. rewrite decide_False by done.
  rewrite pysum_hits. by apply truediv_Z, length_Z_nonzero.
Qed.

Lemma recall_at ing_lst i ingredients d a :
  Py.getitem ing_lst i = Some d → Py.getitem ingredients i = Some a →
  recall ing_lst i ingredients =
    if decide (d = []) then Some 0%Q
    else if decide (a = []) then None
    else Some (inject_Z (hits d a) / inject_Z (Z.of_nat (length a)))%Q.
Proof.
  intros Hd Ha. unfold recall. rewrite Hd, Ha. simpl.
  destruct d as [|w d]; [done|].
  rewrite decide_False by done. rewrite decide_False by done.
  rewrite pysum_hits. case_decide as Ea.
  - subst a. apply truediv_Z0.
  - by apply truediv_Z, length_Z_nonzero.
Qed.

Lemma precision_inv ing_lst i ingredients p :
  precision ing_lst i ingredients = Some p →
  ∃ d a, Py.getitem ing_lst i = Some d ∧ Py.getitem ingredients i = Some a.
Proof.
  unfold precision. intros H.
  destruct (Py.getitem ing_lst i) as [d|]; [|done].
  destruct (Py.getitem ingredients i) as [a|]; [|done]. eauto.
Qed.

Lemma Qdiv_Z_nonneg (x y : Z) : 0 <= x → 0 < y → (0 <= inject_Z x / inject_Z y)%Q.
Proof.
  intros Hx Hy. apply Qle_shift_div_l.
  - change 0%Q with (inject_Z 0). rewrite <- Zlt_Qlt. done.
  - rewrite Qmult_0_l. change 0%Q with (inject_Z 0). by rewrite <- Zle_Qle.
Qed.

Lemma Qdiv_Z_eq0 (x y : Z) : y ≠ 0 → (inject_Z x / inject_Z y == 0)%Q ↔ x = 0.
Proof.
  intros Hy. split.
  - intros E. apply inject_Z_eq0.
    assert (inject_Z x == inject_Z x / inject_Z y * inject_Z y)%Q as ->.
    { field. by rewrite inject_Z_eq0. }
    rewrite E. ring.
  - intros ->. field. by rewrite inject_Z_eq0.
Qed.

Lemma Qdiv_Z_le1 (x y : Z) : x <= y → 0 < y → (inject_Z x / inject_Z y <= 1)%Q.
Proof.
  intros Hx Hy. apply Qle_shift_div_r.
  - change 0%Q with (inject_Z 0). by rewrite <- Zlt_Qlt.
  - rewrite Qmult_1_l. by rewrite <- Zle_Qle.
Qed.

Lemma Qeq_bool_false (x : Q) : Qeq_bool x 0 = false ↔ ¬ (x == 0)%Q.
Proof.
  split.
  - intros E H. apply Qeq_bool_iff in H. congruence.
  - intros H. destruct (Qeq_bool x 0) eqn:E; [|done].
    by apply Qeq_bool_iff in E.
Qed.

(** [F1score] once [precision] and [recall] have returned. *)
Lemma F1score_at ing_lst i ingredients p r :
  precision ing_lst i ingredients = Some p →
  recall ing_lst i ingredients = Some r →
  F1score ing_lst i ingredients =
    if Qeq_bool p 0 && Qeq_bool r 0 then Some 0%Q
    else truediv (2 * p * r) (p + r).
Proof. intros Hp Hr. unfold F1score. by rewrite Hp, Hr. Qed.

(** What [precision] and [recall] return, when both return: both are 0
    for an empty detection, and otherwise they are the same count of hits
    over two positive lengths. *)
Lemma precision_recall_shape ing_lst i ingredients p r :
  precision ing_lst i ingredients = Some p →
  recall ing_lst i ingredients = Some r →
  (p = 0%Q ∧ r = 0%Q) ∨
  ∃ h n m : Z, 0 <= h ∧ 0 < n ∧ 0 < m ∧
    p = (inject_Z h / inject_Z n)%Q ∧ r = (inject_Z h / inject_Z m)%Q.
Proof.
  intros Hp Hr.
  destruct (precision_inv _ _ _ _ Hp) as (d & a & Hd & Ha).
  rewrite (precision_at _ _ _ d a Hd Ha) in Hp.
  rewrite (recall_at _ _ _ d a Hd Ha) in Hr.
  destruct (decide (d = [])) as [->|Hne]; [left; by simplify_eq|].
  destruct (decide (a = [])) as [->|Hna]; [done|]. simplify_eq.
  right. exists (hits d a), (Z.of_nat (length d)), (Z.of_nat (length a)).
  pose proof (hits_nonneg d a).
  pose proof (length_Z_nonzero d Hne). pose proof (length_Z_nonzero a Hna).
  repeat split; try done; lia.
Qed.

(** When both return, [precision] and [recall] are non-negative and one
    is 0 exactly when the other is. *)
Lemma precision_recall_zero ing_lst i ingredients p r :
  precision ing_lst i ingredients = Some p →
  recall ing_lst i ingredients = Some r →
  ((p == 0)%Q ↔ (r == 0)%Q) ∧ (0 <= p)%Q ∧ (0 <= r)%Q.
Proof.
  intros Hp Hr.
  destruct (precision_recall_shape _ _ _ _ _ Hp Hr)
    as [[-> ->]|(h & n & m & Hh & Hn & Hm & -> & ->)].
  { split_and!; [done| |]; lra. }
  assert (n ≠ 0) as Hn0 by lia. assert (m ≠ 0) as Hm0 by lia.
  split_and!; [by rewrite !Qdiv_Z_eq0| |]; by apply Qdiv_Z_nonneg.
Qed.

(** Two non-negative numbers that are not both 0 have a positive sum,
    and dividing by it does not raise. *)
Lemma truediv_sum (p r : Q) :
  (0 <= p)%Q → (0 <= r)%Q → ¬ ((p == 0)%Q ∧ (r == 0)%Q) →
  (0 < p + r)%Q ∧ truediv (2 * p * r) (p + r) = Some (2 * p * r / (p + r))%Q.
Proof.
  intros Hp Hr Hnz.
  assert (0 < p + r)%Q as Hsum.
  { destruct (Qlt_le_dec 0 p) as [?|Hp']; [lra|].
    destruct (Qlt_le_dec 0 r) as [?|Hr']; [lra|].
    destruct Hnz. split; lra. }
  split; [done|]. unfold truediv.
  assert (Qeq_bool (p + r) 0 = false) as ->; [|done].
  apply Qeq_bool_false. lra.
Qed.

Lemma guard_false (p r : Q) :
  ¬ ((p == 0)%Q ∧ (r == 0)%Q) → Qeq_bool p 0 && Qeq_bool r 0 = false.
Proof.
  intros Hnz. apply andb_false_iff.
  destruct (Qeq_bool p 0) eqn:Ep; [|by left].
  destruct (Qeq_bool r 0) eqn:Er; [|by right].
  destruct Hnz. split; by apply Qeq_bool_iff.
Qed.

(** C4: whenever [precision] and [recall] both return, one is 0 exactly
    when the other is; and when the guard [p==0 and r==0] does not fire,
    [p + r] is strictly positive, so that [F1score] returns
    [2*p*r/(p+r)] without dividing by zero. *)
Theorem F1score_no_zero_division ing_lst i ingredients p r :
  precision ing_lst i ingredients = Some p →
  recall ing_lst i ingredients = Some r →
  ((p == 0)%Q ↔ (r == 0)%Q) ∧
  (¬ ((p == 0)%Q ∧ (r == 0)%Q) →
     (0 < p + r)%Q ∧
     truediv (2 * p * r) (p + r) = Some (2 * p * r / (p + r))%Q ∧
     F1score ing_lst i ingredients = Some (2 * p * r / (p + r))%Q).
Proof.
  intros Hp Hr.
  destruct (precision_recall_zero _ _ _ _ _ Hp Hr) as (Hiff & Hp0 & Hr0).
  split; [exact Hiff|]. intros Hnz.
  destruct (truediv_sum p r Hp0 Hr0 Hnz) as [Hsum Hdiv].
  split_and!; [exact Hsum | exact Hdiv |].
  rewrite (F1score_at _ _ _ _ _ Hp Hr), (guard_false p r Hnz). exact Hdiv.
Qed.

Lemma F1score_no_zero_division_witness :
  ((2 # 3 == 0)%Q ↔ (2 # 4 == 0)%Q) ∧
  (¬ ((2 # 3 == 0)%Q ∧ (2 # 4 == 0)%Q) →
     (0 < (2 # 3) + (2 # 4))%Q ∧
     truediv (2 * (2 # 3) * (2 # 4)) ((2 # 3) + (2 # 4))
       = Some (2 * (2 # 3) * (2 # 4) / ((2 # 3) + (2 # 4)))%Q ∧
     F1score [["salt"; "sugar"; "watet"]] 0 [["salt"; "sugar"; "water"; "yeast"]]
       = Some (2 * (2 # 3) * (2 # 4) / ((2 # 3) + (2 # 4)))%Q).
Proof.
  apply (F1score_no_zero_division
           [["salt"; "sugar"; "watet"]] 0 [["salt"; "sugar"; "water"; "yeast"]]);
    reflexivity.
Defined.

(** C1: when the detected list is empty or the actual list is not,
    [precision] is the number of detected tokens found among the actual
    ingredients over the number of detected tokens, [recall] is the same
    count over the number of actual tokens (both 0 for an empty
    detection), and [F1score] is 0 when both are 0 and [2*p*r/(p+r)]
    otherwise. *)
Theorem F1score_formula ing_lst i ingredients d a :
  Py.getitem ing_lst i = Some d →
  Py.getitem ingredients i = Some a →
  d = [] ∨ a ≠ [] →
  ∃ p r f,
    precision ing_lst i ingredients = Some p ∧
    recall ing_lst i ingredients = Some r ∧
    F1score ing_lst i ingredients = Some f ∧
    p = (if decide (d = []) then 0
         else inject_Z (hits d a) / inject_Z (Z.of_nat (length d)))%Q ∧
    r = (if decide (d = []) then 0
         else inject_Z (hits d a) / inject_Z (Z.of_nat (length a)))%Q ∧
    ((p == 0)%Q ∧ (r == 0)%Q → f = 0%Q) ∧
    (¬ ((p == 0)%Q ∧ (r == 0)%Q) → ¬ (p + r == 0)%Q ∧ f = (2 * p * r / (p + r))%Q).
Proof.
  intros Hd Ha Hcase.
  pose proof (precision_at _ _ _ d a Hd Ha) as Hp.
  pose proof (recall_at _ _ _ d a Hd Ha) as Hr.
  assert (∃ r, recall ing_lst i ingredients = Some r ∧
     r = (if decide (d = []) then 0
          else inject_Z (hits d a) / inject_Z (Z.of_nat (length a)))%Q)
    as (r & Hr' & Er).
  { rewrite Hr. destruct (decide (d = [])); [eauto|].
    destruct Hcase as [?|Hna]; [done|]. rewrite decide_False by done. eauto. }
  assert (∃ p, precision ing_lst i ingredients = Some p ∧
     p = (if decide (d = []) then 0
          else inject_Z (hits d a) / inject_Z (Z.of_nat (length d)))%Q)
    as (p & Hp' & Ep).
  { rewrite Hp. destruct (decide (d = [])); eauto. }
  destruct (precision_recall_zero _ _ _ _ _ Hp' Hr') as (_ & Hp0 & Hr0).
  destruct (Qeq_bool p 0 && Qeq_bool r 0) eqn:G.
  - apply andb_true_iff in G as [Gp%Qeq_bool_iff Gr%Qeq_bool_iff].
    exists p, r, 0%Q. rewrite (F1score_at _ _ _ _ _ Hp' Hr').
    assert (Qeq_bool p 0 && Qeq_bool r 0 = true) as ->.
    { apply andb_true_iff; split; by apply Qeq_bool_iff. }
    split_and!; try done. intros Hn. by destruct Hn.
  - assert (¬ ((p == 0)%Q ∧ (r == 0)%Q)) as Hn.
    { intros [Gp%Qeq_bool_iff Gr%Qeq_bool_iff]. by rewrite Gp, Gr in G. }
    destruct (truediv_sum p r Hp0 Hr0 Hn) as [Hsum Hdiv].
    assert (F1score ing_lst i ingredients = Some (2 * p * r / (p + r))%Q) as HF.
    { by rewrite (F1score_at _ _ _ _ _ Hp' Hr'), G. }
    exists p, r, (2 * p * r / (p + r))%Q.
    split_and!; try done. intros _. split; [|done].
    intros E. rewrite E in Hsum. by apply Qlt_irrefl in Hsum.
Qed.

Lemma F1score_formula_witness :
  ∃ p r f,
    precision [["salt"; "sugar"; "watet"]] 0 [["salt"; "sugar"; "water"; "yeast"]] = Some p ∧
    recall [["salt"; "sugar"; "watet"]] 0 [["salt"; "sugar"; "water"; "yeast"]] = Some r ∧
    F1score [["salt"; "sugar"; "watet"]] 0 [["salt"; "sugar"; "water"; "yeast"]] = Some f ∧
    p = (inject_Z 2 / inject_Z 3)%Q ∧
    r = (inject_Z 2 / inject_Z 4)%Q ∧
    ((p == 0)%Q ∧ (r == 0)%Q → f = 0%Q) ∧
    (¬ ((p == 0)%Q ∧ (r == 0)%Q) → ¬ (p + r == 0)%Q ∧ f = (2 * p * r / (p + r))%Q).
Proof.
  apply (F1score_formula
           [["salt"; "sugar"; "watet"]] 0 [["salt"; "sugar"; "water"; "yeast"]]
           ["salt"; "sugar"; "watet"] ["salt"; "sugar"; "water"; "yeast"]);
    [reflexivity | reflexivity | right; discriminate].
Defined.

(** C2, as stated, fails: a detected list that repeats a token counts it
    once per occurrence, and [recall] returns 2. *)
Lemma recall_above_one :
  recall [["salt"; "salt"]] 0 [["salt"]] = Some (2 # 1)%Q ∧ ¬ (2 # 1 <= 1)%Q.
Proof. split; [reflexivity|]. intros H. by vm_compute in H. Qed.

(** C2, amended: for a detected list without repeated tokens, and an
    actual list that is non-empty unless the detected list is empty,
    [recall] returns a value between 0 and 1. *)
Theorem recall_bounds ing_lst i ingredients d a :
  Py.getitem ing_lst i = Some d →
  Py.getitem ingredients i = Some a →
  NoDup d →
  d = [] ∨ a ≠ [] →
  ∃ v, recall ing_lst i ingredients = Some v ∧ (0 <= v)%Q ∧ (v <= 1)%Q.
Proof.
  intros Hd Ha ND Hcase. rewrite (recall_at _ _ _ d a Hd Ha).
  destruct (decide (d = [])) as [->|Hne].
  { exists 0%Q. split_and!; [done| |]; lra. }
  destruct Hcase as [?|Hna]; [done|]. rewrite decide_False by done.
  eexists; split; [done|].
  pose proof (hits_nonneg d a). pose proof (hits_le_actual d a ND).
  pose proof (length_Z_nonzero a Hna).
  split; [apply Qdiv_Z_nonneg | apply Qdiv_Z_le1]; lia.
Qed.

Lemma recall_bounds_witness :
  ∃ v, recall [["salt"; "sugar"; "watet"]] 0 [["salt"; "sugar"; "water"; "yeast"]] = Some v
       ∧ (0 <= v)%Q ∧ (v <= 1)%Q.
Proof.
  apply (recall_bounds
           [["salt"; "sugar"; "watet"]] 0 [["salt"; "sugar"; "water"; "yeast"]]
           ["salt"; "sugar"; "watet"] ["salt"; "sugar"; "water"; "yeast"]);
    [reflexivity | reflexivity | | right; discriminate].
  apply (bool_decide_unpack _). vm_compute. exact I.
Defined.

(** C8: where the detected list equals the actual list and that list is
    non-empty and duplicate-free, [precision], [recall] and [F1score] all
    return 1. *)
Theorem perfect_detection ing_lst i ingredients d :
  Py.getitem ing_lst i = Some d →
  Py.getitem ingredients i = Some d →
  d ≠ [] →
  NoDup d →
  ∃ p r f,
    precision ing_lst i ingredients = Some p ∧
    recall ing_lst i ingredients = Some r ∧
    F1score ing_lst i ingredients = Some f ∧
    (p == 1)%Q ∧ (r == 1)%Q ∧ (f == 1)%Q.
Proof.
  intros Hd Ha Hne _.
  pose proof (length_Z_nonzero d Hne) as Hlen.
  set (n := Z.of_nat (length d)) in *.
  assert (inject_Z n / inject_Z n == 1)%Q as Hone.
  { field. by rewrite inject_Z_eq0. }
  assert (precision ing_lst i ingredients = Some (inject_Z n / inject_Z n)%Q) as Hp.
  { rewrite (precision_at _ _ _ d d Hd Ha), decide_False by done. by rewrite hits_self. }
  assert (recall ing_lst i ingredients = Some (inject_Z n / inject_Z n)%Q) as Hr.
  { rewrite (recall_at _ _ _ d d Hd Ha), !decide_False by done. by rewrite hits_self. }
  assert (¬ ((inject_Z n / inject_Z n == 0)%Q ∧ (inject_Z n / inject_Z n == 0)%Q))
    as Hnz.
  { intros [E _]. rewrite Hone in E. by vm_compute in E. }
  destruct (precision_recall_zero _ _ _ _ _ Hp Hr) as (_ & Hp0 & _).
  destruct (truediv_sum _ _ Hp0 Hp0 Hnz) as [_ Hdiv].
  assert (F1score ing_lst i ingredients
          = Some (2 * (inject_Z n / inject_Z n) * (inject_Z n / inject_Z n)
                  / (inject_Z n / inject_Z n + inject_Z n / inject_Z n))%Q) as HF.
  { by rewrite (F1score_at _ _ _ _ _ Hp Hr), (guard_false _ _ Hnz). }
  eexists _, _, _. split_and!; [exact Hp | exact Hr | exact HF | done | done |].
  rewrite Hone. by vm_compute.
Qed.

Lemma perfect_detection_witness :
  ∃ p r f,
    precision [["salt"; "sugar"; "water"]] 0 [["salt"; "sugar"; "water"]] = Some p ∧
    recall [["salt"; "sugar"; "water"]] 0 [["salt"; "sugar"; "water"]] = Some r ∧
    F1score [["salt"; "sugar"; "water"]] 0 [["salt"; "sugar"; "water"]] = Some f ∧
    (p == 1)%Q ∧ (r == 1)%Q ∧ (f == 1)%Q.
Proof.
  apply (perfect_detection
           [["salt"; "sugar"; "water"]] 0 [["salt"; "sugar"; "water"]]
           ["salt"; "sugar"; "water"]);
    [reflexivity | reflexivity | discriminate |].
  apply (bool_decide_unpack _). vm_compute. exact I.
Defined.


(** ** Cleaning a text *)

Lemma mapM_clean_word (ws : list string) :
  mapM clean_word ws = Some (spec_clean_word <$> ws).
Proof.
  induction ws as [|w ws IH]; [done|].
  cbn [mapM]. rewrite clean_word_kept, <- spec_clean_word_ltb, IH. done.
Qed.

Lemma truthy_nonempty (w : string) : truthy w ↔ w ≠ "".
Proof. unfold truthy. by rewrite bool_decide_spec. Qed.

(** Whatever the iteration order of the set, sorting its non-empty
    elements gives the sorted list of the distinct non-empty words. *)
Lemma sorted_set_iter set_iter (xs : list string) :
  valid_iter set_iter →
  sorted (filter (λ w, truthy w) (set_iter (list_to_set xs))) = spec_sorted_distinct xs.
Proof.
  intros Hit. unfold sorted, spec_sorted_distinct.
  apply (StronglySorted_unique String.le).
  - apply StronglySorted_merge_sort; apply _.
  - apply StronglySorted_merge_sort; apply _.
  - rewrite !merge_sort_Permutation. apply NoDup_Permutation.
    + apply NoDup_filter. rewrite (Hit _). apply NoDup_elements.
    + apply NoDup_remove_dups.
    + intros w. rewrite elem_of_remove_dups, !list_elem_of_filter, (Hit _).
      rewrite elem_of_elements, elem_of_list_to_set, truthy_nonempty. done.
Qed.

Lemma valid_iter_elements : valid_iter elements.
Proof. by intros X. Qed.

(** [clean_text] once the words have been cleaned. *)
Lemma clean_text_iter_eq set_iter text split :
  valid_iter set_iter →
  clean_text_iter set_iter text split =
    if negb split then
      Some (spec_sorted_distinct
              (spec_clean_word <$> match text with PStr s => Py.chars s | PList l => l end))
    else
      match text with
      | PStr s =>
          t1 ← Re.sub "[0-9]" " " s;
          t2 ← Re.sub ("[" +:+ Py.punctuation +:+ "]") " " t1;
          Some (spec_sorted_distinct (spec_clean_word <$> Py.split t2))
      | PList _ => None
      end.
Proof.
  intros Hit. unfold clean_text_iter. destruct split; cbn [negb].
  - destruct text as [s|l]; [|done].
    destruct (Re.sub "[0-9]" " " s) as [t1|]; [|done]. cbn [mbind option_bind].
    destruct (Re.sub _ " " t1) as [t2|]; [|done]. cbn [mbind option_bind].
    rewrite mapM_clean_word. cbn [mbind option_bind]. by rewrite sorted_set_iter.
  - rewrite mapM_clean_word. cbn [mbind option_bind]. by rewrite sorted_set_iter.
Qed.

(** The result does not depend on the order in which the set is iterated. *)
Lemma clean_text_iter_any set_iter text split :
  valid_iter set_iter → clean_text_iter set_iter text split = clean_text text split.
Proof.
  intros Hit. unfold clean_text.
  by rewrite (clean_text_iter_eq _ _ _ Hit), (clean_text_iter_eq _ _ _ valid_iter_elements).
Qed.

Lemma strict_sorted_of_NoDup (l : list string) :
  StronglySorted String.le l → NoDup l → strictly_ascending l.
Proof.
  unfold strictly_ascending.
  induction 1 as [|x l Hl IH Hx]; intros ND; [constructor|].
  apply NoDup_cons in ND as [Hnin ND]. constructor; [by apply IH|].
  destruct l as [|y l']; constructor.
  apply Forall_cons in Hx as [Hxy _]. split; [done|].
  intros Hyx. apply Hnin. 
  assert (x = y) as -> by (by apply (anti_symm String.le)). by left.
Qed.

Lemma lower_letter_is_lowercase c :
  is_ascii_letter (Py.lower_char c) = true → is_lowercase_letter (Py.lower_char c) = true.
Proof. by destruct c as [[] [] [] [] [] [] [] []]. Qed.

Lemma keep_lower_lowercase s :
  Py.all is_lowercase_letter (Py.keep is_ascii_letter (Py.lower s)) = true.
Proof.
  induction s as [|c s IH]; simpl; [done|].
  destruct (is_ascii_letter (Py.lower_char c)) eqn:E; [|done].
  simpl. by rewrite (lower_letter_is_lowercase c E), IH.
Qed.

(** A non-empty result of [clean_word] is a cleaned token. *)
Lemma spec_clean_word_token w : spec_clean_word w ≠ "" → cleaned_token (spec_clean_word w).
Proof.
  unfold spec_clean_word, cleaned_token. simpl.
  case_decide as Hlen; [done|]. intros _.
  split; [lia|apply keep_lower_lowercase].
Qed.

Lemma spec_sorted_distinct_invariant (ws : list string) :
  let l := spec_sorted_distinct (spec_clean_word <$> ws) in
  strictly_ascending l ∧ NoDup l ∧ Forall cleaned_token l.
Proof.
  simpl. unfold spec_sorted_distinct.
  set (xs := remove_dups _).
  assert (NoDup (merge_sort String.le xs)) as ND.
  { rewrite merge_sort_Permutation. apply NoDup_remove_dups. }
  split_and!; [|done|].
  - apply strict_sorted_of_NoDup; [|done].
    apply StronglySorted_merge_sort; apply _.
  - rewrite merge_sort_Permutation. apply Forall_forall. intros w.
    unfold xs. rewrite elem_of_remove_dups, list_elem_of_filter.
    intros [Hne [w0 [-> _]]%list_elem_of_fmap]. by apply spec_clean_word_token.
Qed.

(** C7: every list returned by [clean_text], for either value of [split],
    is strictly ascending, has no duplicates, and contains only strings of
    at least 2 characters that are all lowercase ASCII letters. *)
Theorem clean_text_invariant text split l :
  clean_text text split = Some l →
  strictly_ascending l ∧ NoDup l ∧ Forall cleaned_token l.
Proof.
  unfold clean_text. rewrite (clean_text_iter_eq _ _ _ valid_iter_elements).
  destruct split; cbn [negb].
  - destruct text as [s|ws]; [|done].
    destruct (Re.sub "[0-9]" " " s) as [t1|]; [|done]. cbn [mbind option_bind].
    destruct (Re.sub _ " " t1) as [t2|]; [|done]. cbn [mbind option_bind].
    intros [= <-]. apply spec_sorted_distinct_invariant.
  - intros [= <-]. apply spec_sorted_distinct_invariant.
Qed.

Lemma clean_text_invariant_witness :
  strictly_ascending ["sugar"; "water"] ∧ NoDup ["sugar"; "water"]
  ∧ Forall cleaned_token ["sugar"; "water"].
Proof.
  apply (clean_text_invariant (PStr "Water, SUGAR (2%), e330 a water") true).
  vm_compute. reflexivity.
Defined.

(** *** The two replacements of the [split] branch *)

Lemma compile_digits : Re.compile "[0-9]" = Some re_digits.
Proof. reflexivity. Qed.

Lemma compile_punctuation :
  Re.compile ("[" +:+ Py.punctuation +:+ "]") = Some re_punctuation.
Proof. reflexivity. Qed.

Lemma sub_go_each r (x : ascii) b s :
  Re.plus r = false →
  Re.sub_go r (String x "") b s = Py.translate (λ c, if Re.matches r c then x else c) s.
Proof.
  intros Hplus. revert b. induction s as [|c s IH]; intros b; simpl; [done|].
  rewrite Hplus. simpl. destruct (Re.matches r c); by rewrite IH.
Qed.

Lemma translate_translate f g s :
  Py.translate g (Py.translate f s) = Py.translate (g ∘ f) s.
Proof. induction s as [|c s IH]; simpl; [done|]. by rewrite IH. Qed.

Lemma translate_ext_on (p : ascii → bool) f g s :
  (∀ c, p c = false → f c = g c) →
  Py.any p s = false → Py.translate f s = Py.translate g s.
Proof.
  intros E. induction s as [|c s IH]; simpl; [done|].
  intros [Hc Hs]%orb_false_iff. by rewrite (E c Hc), IH.
Qed.

(** Outside the backslash, the set parsed from [string.punctuation] is
    [string.punctuation]; with the digits blanked first, the two
    replacements blank every digit and every punctuation character. *)
Lemma blank_char c :
  bool_decide (c = "\"%char) = false →
  (let c1 := if Re.matches re_digits c then " "%char else c in
   if Re.matches re_punctuation c1 then " "%char else c1)
  = (if is_digit c || is_punctuation c then " "%char else c).
Proof. by destruct c as [[] [] [] [] [] [] [] []]. Qed.

(** The backslash is a punctuation character that the set does not match. *)
Lemma backslash_not_matched :
  is_punctuation "\" = true ∧ Re.matches re_punctuation "\" = false.
Proof. done. Qed.

Lemma blank_without_backslash s :
  Py.any (λ c, bool_decide (c = "\"%char)) s = false →
  (t1 ← Re.sub "[0-9]" " " s; Re.sub ("[" +:+ Py.punctuation +:+ "]") " " t1)
  = Some (spec_blank s).
Proof.
  intros Hs. unfold Re.sub. rewrite compile_digits, compile_punctuation.
  cbn [mbind option_bind]. f_equal.
  rewrite !sub_go_each by done. rewrite translate_translate.
  unfold spec_blank.
  apply (translate_ext_on (λ c, bool_decide (c = "\"%char))); [|done].
  intros c Hc. apply (blank_char c Hc).
Qed.

(** With [split=False], [clean_text] does what the specification says on
    every list of strings. *)
Lemma clean_text_list_spec (l : list string) :
  clean_text (PList l) false = Some (spec_clean_text_list l).
Proof.
  unfold clean_text. by rewrite (clean_text_iter_eq _ _ _ valid_iter_elements).
Qed.

(** With [split=True], [clean_text] does what the specification says on
    every text that has no backslash. *)
Lemma clean_text_split_spec (s : string) :
  Py.any (λ c, bool_decide (c = "\"%char)) s = false →
  clean_text (PStr s) true = Some (spec_clean_text_split s).
Proof.
  intros Hs. unfold clean_text.
  rewrite (clean_text_iter_eq _ _ _ valid_iter_elements). cbn [negb].
  pose proof (blank_without_backslash s Hs) as Hb.
  destruct (Re.sub "[0-9]" " " s) as [t1|]; [|done]. cbn [mbind option_bind] in *.
  by rewrite Hb.
Qed.


(** C6: on a text with a backslash the code and the specification part
    ways; the backslash is punctuation, and the code leaves it in its
    token instead of replacing it by a space. *)
Theorem clean_text_backslash :
  clean_text (PStr "salt\pepper") true = Some ["saltpepper"] ∧
  spec_clean_text_split "salt\pepper" = ["pepper"; "salt"].
Proof. split; vm_compute; reflexivity. Qed.

(** ** The CSV cache *)

Lemma str_app_cons c s t : String c s +:+ t = String c (s +:+ t).
Proof. reflexivity. Qed.

Lemma str_app_nil_r s : s +:+ "" = s.
Proof. induction s as [|c s IH]; [done|]. by rewrite str_app_cons, IH. Qed.

Lemma str_app_assoc s t u : (s +:+ t) +:+ u = s +:+ (t +:+ u).
Proof. induction s as [|c s IH]; [done|]. by rewrite !str_app_cons, IH. Qed.

Lemma str_app_snoc s c t : (s +:+ String c "") +:+ t = s +:+ String c t.
Proof. by rewrite str_app_assoc. Qed.

(** Reading a quoted field up to its closing quote and the end of line. *)
Lemma records_quoted c cur rows rest :
  Csv.records Csv.Quoted cur rows
    (Csv.double_quotes c +:+ String Csv.dquote (String Csv.newline rest))
  = Csv.records Csv.Start "" ((cur +:+ c) :: rows) rest.
Proof.
  revert cur. induction c as [|a c IH]; intros cur.
  - by rewrite str_app_nil_r.
  - cbn [Csv.double_quotes]. case_bool_decide as Ha.
    + subst a. rewrite !str_app_cons. cbn [Csv.records].
      rewrite bool_decide_eq_true_2 by done. rewrite IH. by rewrite str_app_snoc.
    + rewrite !str_app_cons. cbn [Csv.records].
      rewrite bool_decide_eq_false_2 by done. rewrite IH. by rewrite str_app_snoc.
Qed.

(** Reading an unquoted field up to the end of line. *)
Lemma records_unquoted c cur rows rest :
  Py.any Csv.special c = false → no_cr c →
  Csv.records Csv.Unquoted cur rows (c +:+ String Csv.newline rest)
  = Csv.records Csv.Start "" ((cur +:+ c) :: rows) rest.
Proof.
  unfold no_cr. revert cur. induction c as [|a c IH]; intros cur Hc Hcr.
  - by rewrite str_app_nil_r.
  - cbn [Py.any] in Hc, Hcr.
    apply orb_false_iff in Hc as [Ha Hc]. apply orb_false_iff in Hcr as [Hacr Hcr].
    unfold Csv.special in Ha.
    apply orb_false_iff in Ha as [[Hcomma _]%orb_false_iff Hnl].
    rewrite str_app_cons. cbn [Csv.records]. unfold Csv.eol.
    rewrite Hnl, Hacr, Hcomma. cbn [orb].
    rewrite IH by done. by rewrite str_app_snoc.
Qed.

(** A written field followed by the end of line is read back as the cell. *)
Lemma records_field c rows rest :
  no_cr c →
  Csv.records Csv.Start "" rows (Csv.field c +:+ String Csv.newline rest)
  = Csv.records Csv.Start "" (c :: rows) rest.
Proof.
  intros Hcr.
  unfold Csv.field. destruct (Py.any Csv.special c || bool_decide (c = "")) eqn:E.
  - rewrite str_app_cons, str_app_snoc. cbn [Csv.records].
    rewrite bool_decide_eq_true_2 by done. by rewrite records_quoted.
  - apply orb_false_iff in E as [Hc Hne]. apply bool_decide_eq_false in Hne.
    destruct c as [|a c]; [done|]. unfold no_cr in Hcr.
    cbn [Py.any] in Hc, Hcr.
    apply orb_false_iff in Hc as [Ha Hc]. apply orb_false_iff in Hcr as [Hacr Hcr].
    pose proof Ha as Ha'. unfold Csv.special in Ha'.
    apply orb_false_iff in Ha' as [[Hcomma Hq]%orb_false_iff Hnl].
    rewrite str_app_cons. cbn [Csv.records]. unfold Csv.eol.
    rewrite Hq, Hnl, Hacr, Hcomma. cbn [orb].
    by rewrite records_unquoted.
Qed.

Lemma records_lines cells rows :
  Forall no_cr cells →
  Csv.records Csv.Start "" rows (Csv.lines (Csv.field <$> cells))
  = Some (reverse rows ++ cells).
Proof.
  intros Hcells. revert rows.
  induction Hcells as [|c cells Hc _ IH]; intros rows.
  - cbn. by rewrite app_nil_r.
  - cbn [fmap list_fmap Csv.lines]. rewrite records_field, IH, reverse_cons by done.
    by rewrite <- (assoc_L (++)).
Qed.

(** A column of cells without carriage return that [to_csv] has written
    is read back by [read_csv]. *)
Lemma read_csv_to_csv column cells :
  no_cr column → Forall no_cr cells →
  Csv.read_csv column (Csv.to_csv column cells) = Some cells.
Proof.
  intros Hcol Hcells. unfold Csv.read_csv, Csv.to_csv.
  change (map Csv.field (column :: cells)) with (Csv.field <$> column :: cells).
  rewrite records_lines by (by constructor). cbn. by rewrite decide_True.
Qed.

Lemma any_app p s t : Py.any p (s +:+ t) = Py.any p s || Py.any p t.
Proof.
  induction s as [|c s IH]; [done|].
  rewrite str_app_cons. cbn [Py.any]. by rewrite IH, orb_assoc.
Qed.

(** [repr] escapes the carriage return: a printed list has none. *)
Lemma escape_no_cr (q c : ascii) :
  bool_decide (q = Csv.cr) = false → no_cr (Repr.escape q c).
Proof.
  intros Hq. unfold no_cr, Repr.escape.
  destruct (bool_decide (c = q)) eqn:Ecq.
  - apply bool_decide_eq_true in Ecq. subst c. cbn [orb Py.any]. by rewrite Hq.
  - cbn [orb]. clear Ecq Hq. by destruct c as [[] [] [] [] [] [] [] []].
Qed.

Lemma escape_all_no_cr (q : ascii) (w : string) :
  bool_decide (q = Csv.cr) = false → no_cr (Repr.escape_all q w).
Proof.
  intros Hq. unfold no_cr. induction w as [|c w IH]; [done|].
  cbn [Repr.escape_all]. rewrite any_app, IH, orb_false_r.
  by apply escape_no_cr.
Qed.

Lemma repr_no_cr (w : string) : no_cr (Repr.repr w).
Proof.
  unfold Repr.repr.
  destruct (Repr.contains "'" w && negb (Repr.contains "034" w));
    unfold no_cr; cbn [Py.any]; rewrite any_app, escape_all_no_cr by done; done.
Qed.

Lemma str_list_no_cr (l : list string) : no_cr (Repr.str_list l).
Proof.
  unfold Repr.str_list, no_cr. rewrite !any_app.
  change (map Repr.repr l) with (Repr.repr <$> l).
  assert (Py.any (λ c, bool_decide (c = Csv.cr)) (Repr.join ", " (Repr.repr <$> l))
          = false) as ->; [|done].
  induction l as [|w l IH]; [done|].
  destruct l as [|w2 l]; [apply repr_no_cr|].
  change (Repr.join ", " (Repr.repr <$> w :: w2 :: l))
    with (Repr.repr w +:+ ", " +:+ Repr.join ", " (Repr.repr <$> w2 :: l)).
  rewrite !any_app, IH. by rewrite repr_no_cr.
Qed.

Lemma mapM_sub_nonletters (pieces : list string) :
  mapM (λ e, Re.sub "[^a-zA-Z]+" "" e) pieces
  = Some (Py.keep is_ascii_letter <$> pieces).
Proof.
  induction pieces as [|e pieces IH]; [done|].
  cbn [mapM]. rewrite sub_nonletters, IH. done.
Qed.

(** Saving and reloading turns every saved list into [reload_cell] of it. *)
Lemma pyt_ingredients_pyt_output (saved : list (list string)) :
  pyt_ingredients (pyt_output saved) = Some (reload_cell <$> saved).
Proof.
  unfold pyt_ingredients, pyt_output. rewrite read_csv_to_csv.
  2: done.
  2: { apply Forall_forall. intros c [l [-> _]]%(list_elem_of_fmap (B := string)).
       apply str_list_no_cr. }
  cbn [mbind option_bind]. induction saved as [|l saved IH]; [done|].
  cbn [map mapM]. rewrite mapM_sub_nonletters. cbn [mbind option_bind].
  rewrite IH. done.
Qed.

Lemma keep_app p s t : Py.keep p (s +:+ t) = Py.keep p s +:+ Py.keep p t.
Proof.
  induction s as [|c s IH]; [done|].
  rewrite str_app_cons. cbn [Py.keep]. destruct (p c); by rewrite IH.
Qed.

Lemma keep_letters_only w : letters_only w → Py.keep is_ascii_letter w = w.
Proof.
  unfold letters_only. induction w as [|c w IH]; [done|].
  cbn [Py.all Py.keep]. intros [-> Hw]%andb_true_iff. by rewrite IH.
Qed.

Lemma letter_escape c :
  is_ascii_letter c = true →
  Repr.escape "'" c = String c "" ∧ bool_decide (c = "'"%char) = false
  ∧ bool_decide (c = ","%char) = false.
Proof. by destruct c as [[] [] [] [] [] [] [] []]. Qed.

Lemma letters_escape_all w : letters_only w → Repr.escape_all "'" w = w.
Proof.
  unfold letters_only. induction w as [|c w IH]; [done|].
  cbn [Py.all Repr.escape_all]. intros [Hc Hw]%andb_true_iff.
  destruct (letter_escape c Hc) as (-> & _ & _). by rewrite IH.
Qed.

Lemma letters_no_quote w : letters_only w → Repr.contains "'" w = false.
Proof.
  unfold letters_only. induction w as [|c w IH]; [done|].
  cbn [Py.all Repr.contains]. intros [Hc Hw]%andb_true_iff.
  destruct (letter_escape c Hc) as (_ & Hq & _).
  rewrite IH by done. rewrite orb_false_r.
  apply bool_decide_eq_false. apply bool_decide_eq_false in Hq. congruence.
Qed.

(** A token of letters is printed between single quotes, as it is. *)
Lemma repr_letters w : letters_only w → Repr.repr w = String "'" (w +:+ "'").
Proof.
  intros Hw. unfold Repr.repr.
  rewrite (letters_no_quote w Hw). cbn [andb]. by rewrite letters_escape_all.
Qed.

Lemma letters_no_comma w :
  letters_only w → Py.any (λ c, bool_decide (c = ","%char)) w = false.
Proof.
  unfold letters_only. induction w as [|c w IH]; [done|].
  cbn [Py.all Py.any]. intros [Hc Hw]%andb_true_iff.
  destruct (letter_escape c Hc) as (_ & _ & ->). by rewrite IH.
Qed.

Lemma split_on_go_app sep cur a b :
  Py.any (λ c, bool_decide (c = sep)) a = false →
  Py.split_on_go sep cur (a +:+ b) = Py.split_on_go sep (cur +:+ a) b.
Proof.
  revert cur. induction a as [|c a IH]; intros cur Ha.
  - by rewrite str_app_nil_r.
  - cbn [Py.any] in Ha. apply orb_false_iff in Ha as [Hc Ha].
    apply bool_decide_eq_false in Hc.
    rewrite str_app_cons. cbn [Py.split_on_go]. rewrite decide_False by done.
    rewrite IH by done. by rewrite str_app_snoc.
Qed.

Lemma split_on_go_sep sep cur b :
  Py.split_on_go sep cur (String sep b) = cur :: Py.split_on_go sep "" b.
Proof. cbn [Py.split_on_go]. by rewrite decide_True. Qed.

Lemma split_on_go_nosep sep cur a :
  Py.any (λ c, bool_decide (c = sep)) a = false →
  Py.split_on_go sep cur a = [cur +:+ a].
Proof.
  intros Ha. rewrite <- (str_app_nil_r a) at 1. by rewrite split_on_go_app.
Qed.

Lemma keep_repr w : letters_only w → Py.keep is_ascii_letter (Repr.repr w) = w.
Proof.
  intros Hw. rewrite (repr_letters w Hw).
  change (Py.keep is_ascii_letter (String "'" (w +:+ "'")))
    with (Py.keep is_ascii_letter (w +:+ "'")).
  rewrite keep_app, keep_letters_only by done. apply str_app_nil_r.
Qed.

Lemma repr_no_comma w :
  letters_only w → Py.any (λ c, bool_decide (c = ","%char)) (Repr.repr w) = false.
Proof.
  intros Hw. rewrite (repr_letters w Hw).
  change (Py.any (λ c, bool_decide (c = ","%char)) (String "'" (w +:+ "'")))
    with (Py.any (λ c, bool_decide (c = ","%char)) (w +:+ "'")).
  by rewrite any_app, letters_no_comma.
Qed.

(** The pieces of the printed list [w :: l], reduced to their letters. *)
Lemma reload_pieces w l cur :
  letters_only w → Forall letters_only l →
  Py.keep is_ascii_letter <$>
    Py.split_on_go "," cur (Repr.join ", " (Repr.repr <$> w :: l) +:+ "]")
  = (Py.keep is_ascii_letter cur +:+ w) :: l.
Proof.
  intros Hw Hl. revert w cur Hw. induction Hl as [|w2 l Hw2 Hl IH]; intros w cur Hw.
  - change (Repr.join ", " (Repr.repr <$> [w])) with (Repr.repr w).
    rewrite split_on_go_nosep.
    + cbn [fmap list_fmap]. rewrite !keep_app, keep_repr by done.
      by rewrite str_app_nil_r.
    + by rewrite any_app, repr_no_comma.
  - change (Repr.join ", " (Repr.repr <$> w :: w2 :: l) +:+ "]")
      with ((Repr.repr w +:+ String "," (String " " (Repr.join ", " (Repr.repr <$> w2 :: l)))) +:+ "]").
    rewrite str_app_assoc, split_on_go_app by (by apply repr_no_comma).
    rewrite !str_app_cons, split_on_go_sep.
    etrans; [apply fmap_cons|]. f_equal.
    + by rewrite keep_app, keep_repr.
    + change (Py.split_on_go "," "" (String " " (Repr.join ", " (Repr.repr <$> w2 :: l) +:+ "]")))
        with (Py.split_on_go "," " " (Repr.join ", " (Repr.repr <$> w2 :: l) +:+ "]")).
      by rewrite (IH w2 " " Hw2).
Qed.

(** A non-empty list of letter-only tokens is reloaded as it was saved. *)
Lemma reload_cell_tokens l :
  l ≠ [] → Forall letters_only l → reload_cell l = l.
Proof.
  intros Hne Hl. destruct l as [|w l]; [done|].
  apply Forall_cons in Hl as [Hw Hl].
  unfold reload_cell, Py.split_on, Repr.str_list.
  rewrite (split_on_go_app "," "" "[") by done.
  by rewrite reload_pieces.
Qed.

(** The empty list is reloaded as the list of one empty string. *)
Lemma reload_cell_empty : reload_cell [] = [""].
Proof. reflexivity. Qed.

Lemma cleaned_token_letters w : cleaned_token w → letters_only w.
Proof.
  intros [_ Hw]. unfold letters_only. induction w as [|c w IH]; [done|].
  cbn [Py.all] in *. apply andb_true_iff in Hw as [Hc Hw].
  rewrite IH by done. rewrite andb_true_r.
  revert Hc. by destruct c as [[] [] [] [] [] [] [] []].
Qed.

(** Images with at least one detected token are reloaded unchanged. *)
Lemma pyt_roundtrip_nonempty (saved : list (list string)) :
  Forall (λ l, l ≠ [] ∧ Forall cleaned_token l) saved →
  pyt_ingredients (pyt_output saved) = Some saved.
Proof.
  intros Hs. rewrite pyt_ingredients_pyt_output. f_equal.
  induction Hs as [|l saved [Hne Hl] _ IH]; [done|].
  cbn [fmap list_fmap]. rewrite reload_cell_tokens, IH; [done..|].
  eapply Forall_impl; [exact Hl|]. apply cleaned_token_letters.
Qed.

(** C3: an image without detected tokens is saved as the empty list and
    reloaded as the list of one empty string. *)
Theorem pyt_roundtrip_empty_detection :
  clean_text (PList [""; "1"]) false = Some [] ∧
  pyt_ingredients (pyt_output [["salt"; "sugar"]; []])
    = Some [["salt"; "sugar"]; [""]].
Proof. split; vm_compute; reflexivity. Qed.

(** ** Selecting the best detections *)

#[local] Instance Qle_transitive : Transitive Qle := Qle_trans.

Lemma StronglySorted_fmap_inv {A B} (R : relation B) (f : A → B) (l : list A) :
  StronglySorted R (f <$> l) → StronglySorted (λ x y, R (f x) (f y)) l.
Proof.
  induction l as [|x l IH]; [constructor|].
  rewrite fmap_cons. intros [Hx Hl]%StronglySorted_cons.
  constructor; [by apply IH|]. by rewrite Forall_fmap in Hx.
Qed.

Lemma StronglySorted_weaken {A} (R1 R2 : relation A) (l : list A) :
  (∀ x y, R1 x y → R2 x y) → StronglySorted R1 l → StronglySorted R2 l.
Proof.
  intros HR. induction 1 as [|x l _ IH Hx]; constructor; [done|].
  eapply Forall_impl; [exact Hx|]. apply HR.
Qed.

(** The key of position [i] in the negated scores is the negated score. *)
Lemma nth_negated scores i : nth i (map Qopp scores) 0%Q = Qopp (score_at scores i).
Proof. unfold score_at. apply (map_nth Qopp scores 0%Q i). Qed.

Section top210.
Context {Img : Type}.
Variable argsort : list Q → list nat.
Hypothesis argsort_ok : is_argsort argsort.

(** The whole order returned by [argsort] on the negated scores lists
    every position once, by descending score. *)
Lemma argsort_negated scores :
  argsort (map Qopp scores) ≡ₚ seq 0 (length scores) ∧
  StronglySorted (score_desc scores) (argsort (map Qopp scores)).
Proof.
  destruct (argsort_ok (map Qopp scores)) as [Hperm Hsorted].
  rewrite length_map in Hperm. split; [done|].
  apply Sorted_StronglySorted in Hsorted; [|apply _].
  apply StronglySorted_fmap_inv in Hsorted.
  eapply StronglySorted_weaken; [|exact Hsorted].
  intros i j. cbn beta. rewrite !nth_negated. unfold score_desc. lra.
Qed.

Lemma mapM_lookup_take {A} (l : list A) (inds : list nat) :
  Forall (λ i, i < length l)%nat inds →
  ∃ xs, mapM (λ i, l !! i) inds = Some xs ∧
        Forall2 (λ i x, l !! i = Some x) inds xs.
Proof.
  intros Hin.
  destruct (mapM_is_Some_2 (λ i, l !! i) inds) as [xs Hxs].
  { eapply Forall_impl; [exact Hin|]. intros i Hi. by apply lookup_lt_is_Some_2. }
  exists xs. split; [done|]. by apply mapM_Some_1.
Qed.

(** C9: for at least 210 scores, with an image and an actual ingredient
    list at every scored position, [top210] returns two lists of length
    210: the images and the ingredient lists found at 210 distinct
    positions, which are in descending score order and whose scores are
    at least those of every position left out. *)
Theorem top210_selects (imgs : list Img) (ingredients : list (list string))
    (scores : list Q) :
  (210 ≤ length scores)%nat →
  (length scores ≤ length imgs)%nat →
  (length scores ≤ length ingredients)%nat →
  ∃ inds imgs210 a_ings,
    top210 argsort imgs ingredients scores = Some (imgs210, a_ings) ∧
    length imgs210 = 210%nat ∧ length a_ings = 210%nat ∧
    length inds = 210%nat ∧ NoDup inds ∧
    Forall (λ i, i < length scores)%nat inds ∧
    Forall2 (λ i x, imgs !! i = Some x) inds imgs210 ∧
    Forall2 (λ i a, ingredients !! i = Some a) inds a_ings ∧
    Sorted (score_desc scores) inds ∧
    (∀ i j, i ∈ inds → (j < length scores)%nat → j ∉ inds → score_desc scores i j).
Proof.
  intros Hn Himgs Hings.
  destruct (argsort_negated scores) as [Hperm Hsorted].
  set (full := argsort (map Qopp scores)) in *.
  set (inds := take 210 full).
  assert (length full = length scores) as Hfull.
  { by rewrite Hperm, length_seq. }
  assert (length inds = 210%nat) as Hlen.
  { unfold inds. rewrite length_take. lia. }
  assert (NoDup full) as NDfull.
  { rewrite Hperm. apply NoDup_seq. }
  assert (Forall (λ i, i < length scores)%nat full) as Hrange.
  { apply Forall_forall. intros i Hi. rewrite Hperm in Hi.
    apply elem_of_seq in Hi. lia. }
  assert (Forall (λ i, i < length scores)%nat inds) as Hinds.
  { by apply Forall_take. }
  rewrite <- (take_drop 210 full) in Hsorted, NDfull. fold inds in Hsorted, NDfull.
  destruct (mapM_lookup_take imgs inds) as (imgs210 & Eimgs & Fimgs).
  { eapply Forall_impl; [exact Hinds|]. intros i Hi; cbn in *. lia. }
  destruct (mapM_lookup_take ingredients inds) as (a_ings & Eings & Fings).
  { eapply Forall_impl; [exact Hinds|]. intros i Hi; cbn in *. lia. }
  destruct (mapM_lookup_take scores inds) as (vals & Evals & _); [done|].
  exists inds, imgs210, a_ings. split_and!.
  - unfold top210. fold full. fold inds. by rewrite Eimgs, Eings, Evals.
  - by rewrite <- (Forall2_length _ _ _ Fimgs).
  - by rewrite <- (Forall2_length _ _ _ Fings).
  - done.
  - by apply NoDup_app in NDfull as (? & _ & _).
  - done.
  - done.
  - done.
  - apply StronglySorted_Sorted. by apply StronglySorted_app_1_l in Hsorted.
  - intros i j Hi Hj Hnot.
    apply (StronglySorted_app_1_elem_of _ inds (drop 210 full)); [done..|].
    assert (j ∈ inds ++ drop 210 full) as Hjin.
    { unfold inds. rewrite take_drop, Hperm. apply elem_of_seq. lia. }
    apply elem_of_app in Hjin as [?|?]; done.
Qed.

End top210.

(** The stable [argsort] is an [argsort]. *)
Lemma stable_argsort_ok : is_argsort stable_argsort.
Proof.
  intros keys. unfold stable_argsort.
  set (R := λ i j : nat, Is_true (Qle_bool (nth i keys 0%Q) (nth j keys 0%Q))).
  assert (Total R) as HT.
  { intros i j. unfold R. rewrite !Is_true_true, !Qle_bool_iff.
    destruct (Qlt_le_dec (nth i keys 0%Q) (nth j keys 0%Q)) as [H|H]; [left|right]; lra. }
  split; [apply merge_sort_Permutation|].
  apply (Sorted_fmap _ R Qle).
  - intros i j. unfold R. by rewrite Is_true_true, Qle_bool_iff.
  - by apply (Sorted_merge_sort R).
Qed.

Lemma top210_selects_witness :
  ∃ inds imgs210 a_ings,
    top210 stable_argsort (seq 0 212) (replicate 212 ["salt"]) example_scores
      = Some (imgs210, a_ings) ∧
    length imgs210 = 210%nat ∧ length a_ings = 210%nat ∧
    length inds = 210%nat ∧ NoDup inds ∧
    Forall (λ i, i < length example_scores)%nat inds ∧
    Forall2 (λ i x, seq 0 212 !! i = Some x) inds imgs210 ∧
    Forall2 (λ i a, replicate 212 ["salt"] !! i = Some a) inds a_ings ∧
    Sorted (score_desc example_scores) inds ∧
    (∀ i j, i ∈ inds → (j < length example_scores)%nat → j ∉ inds →
            score_desc example_scores i j).
Proof.
  apply (top210_selects stable_argsort stable_argsort_ok
           (seq 0 212) (replicate 212 ["salt"]) example_scores);
    vm_compute; lia.
Defined.

(** ** Evaluations on a store *)

Lemma store_mapM_clean_word (ws : list string) (h : Store.heap) :
  mapM Store.clean_word ws h = Some (spec_clean_word <$> ws, h).
Proof.
  induction ws as [|w ws IH]; [done|].
  cbn [mapM]. unfold mbind, Store.M_bind at 1.
  unfold Store.clean_word at 1, Store.lift.
  rewrite clean_word_kept, <- spec_clean_word_ltb.
  unfold Store.M_bind at 1. rewrite IH. done.
Qed.

Lemma store_alloc o (h : Store.heap) :
  ∃ l, Store.alloc o h = Some (l, <[l := o]> h) ∧ h !! l = None.
Proof.
  exists (fresh (dom h)). split; [done|].
  apply not_elem_of_dom, is_fresh.
Qed.

(** Binding a list to [c_text] and returning the sorted list of its
    distinct non-empty words allocates two lists and writes nowhere else. *)
Lemma store_finish set_iter (cs : list string) (h : Store.heap) :
  valid_iter set_iter →
  ∃ l h',
    (c_text ← Store.alloc (Store.OList cs);
     cs' ← Store.read_list c_text;
     Store.alloc (Store.OList
       (sorted (filter (λ w, truthy w) (set_iter (list_to_set cs')))))) h
      = Some (l, h') ∧
    h ⊆ h' ∧ Store.list_at h' l = Some (spec_sorted_distinct cs).
Proof.
  intros Hit.
  destruct (store_alloc (Store.OList cs) h) as (l1 & E1 & F1).
  set (h1 := <[l1 := Store.OList cs]> h) in *.
  destruct (store_alloc (Store.OList (spec_sorted_distinct cs)) h1) as (l2 & E2 & F2).
  exists l2, (<[l2 := Store.OList (spec_sorted_distinct cs)]> h1).
  split_and!.
  - assert (h1 !! l1 = Some (Store.OList cs)) as R1 by apply lookup_insert_eq.
    unfold mbind, Store.M_bind. rewrite E1. cbn beta iota.
    unfold Store.read_list. rewrite R1. cbn beta iota.
    rewrite (sorted_set_iter _ _ Hit). exact E2.
  - etrans; [apply (insert_subseteq h l1 (Store.OList cs) F1)|].
    by apply insert_subseteq.
  - unfold Store.list_at. by rewrite lookup_insert_eq.
Qed.

Lemma store_bind_assoc {A B C} (m : Store.M A) (f : A → Store.M B)
    (g : B → Store.M C) (h : Store.heap) :
  ((m ≫= f) ≫= g) h = (m ≫= λ a, f a ≫= g) h.
Proof. unfold mbind, Store.M_bind. by destruct (m h) as [[a h']|]. Qed.

Lemma store_bind_lift {A B} (x : option A) (k : A → Store.M B) (h : Store.heap) :
  (Store.lift x ≫= k) h = match x with Some a => k a h | None => None end.
Proof. by destruct x. Qed.

Lemma store_bind_ret {A B} (a : A) (k : A → Store.M B) (h : Store.heap) :
  (mret a ≫= k) h = k a h.
Proof. reflexivity. Qed.

Lemma store_bind_mapM {B} (ws : list string) (k : list string → Store.M B)
    (h : Store.heap) :
  (mapM Store.clean_word ws ≫= k) h = k (spec_clean_word <$> ws) h.
Proof. unfold mbind, Store.M_bind. by rewrite store_mapM_clean_word. Qed.

Lemma store_bind_read_list {B} l (k : list string → Store.M B) (h : Store.heap) :
  (Store.read_list l ≫= k) h =
    match Store.list_at h l with Some items => k items h | None => None end.
Proof.
  unfold mbind, Store.M_bind, Store.read_list, Store.list_at.
  by destruct (h !! l) as [[items|items]|].
Qed.

Lemma store_bind_read_nested {B} l (k : list Store.loc → Store.M B) (h : Store.heap) :
  (Store.read_nested l ≫= k) h =
    match h !! l with Some (Store.ONested items) => k items h | _ => None end.
Proof.
  unfold mbind, Store.M_bind, Store.read_nested.
  by destruct (h !! l) as [[items|items]|].
Qed.

(** [clean_text] on a store returns a new list holding what [clean_text]
    returns on the value of [text], and raises when it does. *)
Lemma store_clean_text set_iter text split (h : Store.heap) v :
  valid_iter set_iter →
  Store.text_at h text = Some v →
  match clean_text v split with
  | Some res =>
      ∃ l h', Store.clean_text set_iter text split h = Some (l, h') ∧
              h ⊆ h' ∧ Store.list_at h' l = Some res
  | None => Store.clean_text set_iter text split h = None
  end.
Proof.
  intros Hit Hv. unfold clean_text.
  rewrite (clean_text_iter_eq _ _ _ valid_iter_elements).
  unfold Store.clean_text. destruct split; cbn [negb].
  - destruct text as [s|l]; cbn in Hv.
    + injection Hv as <-.
      rewrite store_bind_assoc, store_bind_lift.
      destruct (Re.sub "[0-9]" " " s) as [t1|]; [|done].
      cbn [mbind option_bind].
      rewrite store_bind_assoc, store_bind_lift.
      destruct (Re.sub _ " " t1) as [t2|]; [|done].
      cbn [mbind option_bind].
      rewrite store_bind_assoc, store_bind_mapM.
      apply (store_finish set_iter (spec_clean_word <$> Py.split t2) h Hit).
    + destruct (Store.list_at h l) as [ws|]; [|done]. injection Hv as <-.
      by rewrite store_bind_lift.
  - rewrite !store_bind_assoc. destruct text as [s|l]; cbn in Hv.
    + injection Hv as <-. rewrite store_bind_ret. cbn beta.
      rewrite store_bind_assoc, store_bind_mapM.
      apply (store_finish set_iter _ h Hit).
    + rewrite store_bind_read_list.
      destruct (Store.list_at h l) as [ws|]; [|done]. injection Hv as <-.
      cbn beta. rewrite store_bind_assoc, store_bind_mapM.
      apply (store_finish set_iter _ h Hit).
Qed.

Lemma lookup_mapM {A B} (f : A → option B) (la : list A) (lb : list B) (n : nat) :
  mapM f la = Some lb → lb !! n = la !! n ≫= f.
Proof.
  intros H%mapM_Some_1. revert n.
  induction H as [|x y la lb Hxy _ IH]; intros [|n]; cbn; done.
Qed.

Lemma getitem_elem_of {A} (l : list A) (i : Z) (x : A) :
  Py.getitem l i = Some x → x ∈ l.
Proof.
  unfold Py.getitem. repeat case_decide; try done;
    intros Hx; apply list_elem_of_lookup; eauto.
Qed.

Lemma getitem_mapM_Some {A B} (f : A → option B) (la : list A) (lb : list B)
    (i : Z) (x : A) :
  mapM f la = Some lb → Py.getitem la i = Some x → is_Some (f x).
Proof.
  intros H Hx. assert (is_Some (mapM f la)) as Hs by (by rewrite H).
  apply mapM_is_Some_1 in Hs. rewrite Forall_forall in Hs.
  apply (Hs x). by eapply getitem_elem_of.
Qed.

Lemma getitem_mapM {A B} (f : A → option B) (la : list A) (lb : list B) (i : Z) :
  mapM f la = Some lb → Py.getitem lb i = Py.getitem la i ≫= f.
Proof.
  intros H. unfold Py.getitem. rewrite <- (length_mapM _ _ _ H).
  repeat case_decide; try done; by apply lookup_mapM.
Qed.

Lemma store_lift_run {A} (x : option A) (h : Store.heap) :
  Store.lift x h = (λ a, (a, h)) <$> x.
Proof. by destruct x. Qed.

(** On a store, [precision] returns what [precision] returns on the
    lists its arguments denote, and leaves the store as it is. *)
Lemma store_precision a i b (h : Store.heap) xss yss :
  Store.nested_at h a = Some xss →
  Store.nested_at h b = Some yss →
  Store.precision a i b h = (λ v, (v, h)) <$> precision xss i yss.
Proof.
  unfold Store.nested_at. intros Ha Hb.
  destruct (h !! a) as [[|la]|] eqn:Ea; try done.
  destruct (h !! b) as [[|lb]|] eqn:Eb; try done.
  unfold Store.precision, precision.
  rewrite store_bind_read_nested, Ea, store_bind_lift.
  rewrite (getitem_mapM _ la xss i Ha).
  destruct (Py.getitem la i) as [dl|] eqn:Edl; [|done]. cbn [mbind option_bind].
  rewrite store_bind_read_nested, Eb, store_bind_lift.
  rewrite (getitem_mapM _ lb yss i Hb).
  destruct (getitem_mapM_Some _ la xss i dl Ha Edl) as [d Hd]. rewrite Hd.
  destruct (Py.getitem lb i) as [al|] eqn:Eal; [|done]. cbn [mbind option_bind].
  destruct (getitem_mapM_Some _ lb yss i al Hb Eal) as [ac Hac]. rewrite Hac.
  cbn [mbind option_bind].
  rewrite store_bind_read_list, Hd.
  case_decide; [done|].
  rewrite store_bind_read_list, Hac. apply store_lift_run.
Qed.

Lemma store_recall a i b (h : Store.heap) xss yss :
  Store.nested_at h a = Some xss →
  Store.nested_at h b = Some yss →
  Store.recall a i b h = (λ v, (v, h)) <$> recall xss i yss.
Proof.
  unfold Store.nested_at. intros Ha Hb.
  destruct (h !! a) as [[|la]|] eqn:Ea; try done.
  destruct (h !! b) as [[|lb]|] eqn:Eb; try done.
  unfold Store.recall, recall.
  rewrite store_bind_read_nested, Ea, store_bind_lift.
  rewrite (getitem_mapM _ la xss i Ha).
  destruct (Py.getitem la i) as [dl|] eqn:Edl; [|done]. cbn [mbind option_bind].
  rewrite store_bind_read_nested, Eb, store_bind_lift.
  rewrite (getitem_mapM _ lb yss i Hb).
  destruct (getitem_mapM_Some _ la xss i dl Ha Edl) as [d Hd]. rewrite Hd.
  destruct (Py.getitem lb i) as [al|] eqn:Eal; [|done]. cbn [mbind option_bind].
  destruct (getitem_mapM_Some _ lb yss i al Hb Eal) as [ac Hac]. rewrite Hac.
  cbn [mbind option_bind].
  rewrite store_bind_read_list, Hd.
  case_decide; [done|].
  rewrite store_bind_read_list, Hac. apply store_lift_run.
Qed.

Lemma store_F1score a i b (h : Store.heap) xss yss :
  Store.nested_at h a = Some xss →
  Store.nested_at h b = Some yss →
  Store.F1score a i b h = (λ v, (v, h)) <$> F1score xss i yss.
Proof.
  intros Ha Hb. unfold Store.F1score, F1score.
  unfold mbind at 1, Store.M_bind at 1. rewrite (store_precision _ _ _ _ _ _ Ha Hb).
  destruct (precision xss i yss) as [p|]; [|done]. cbn [fmap option_fmap option_map].
  unfold mbind at 1, Store.M_bind at 1. rewrite (store_recall _ _ _ _ _ _ Ha Hb).
  destruct (recall xss i yss) as [r|]; [|done].
  cbn [fmap option_fmap option_map mbind option_bind].
  destruct (Qeq_bool p 0 && Qeq_bool r 0); [done|]. apply store_lift_run.
Qed.

Lemma same_outcome_value {A} (h1 h2 : Store.heap) (x : option A) :
  Store.same_outcome Store.same_value
    h1 ((λ v, (v, h1)) <$> x) h2 ((λ v, (v, h2)) <$> x).
Proof. destruct x; cbn; [|done]. by split_and!. Qed.

(** C10: two evaluations of [clean_word], [clean_text], [precision],
    [recall] or [F1score] on equal arguments, in any two stores and with
    any two iteration orders of sets, either both raise or both return:
    then the results are equal (for [clean_text], the two returned lists
    are equal) and every object of the two initial stores, the argument
    lists among them, is left as it was. *)
Theorem evaluations_agree (h1 h2 : Store.heap) (iter1 iter2 : gset string → list string)
    (word : string) (text1 text2 : Store.textref) (text : pytext) (split : bool)
    (ing_lst1 ing_lst2 ingredients1 ingredients2 : Store.loc) (i : Z)
    (detected actual : list (list string)) :
  valid_iter iter1 → valid_iter iter2 →
  Store.text_at h1 text1 = Some text → Store.text_at h2 text2 = Some text →
  Store.nested_at h1 ing_lst1 = Some detected →
  Store.nested_at h2 ing_lst2 = Some detected →
  Store.nested_at h1 ingredients1 = Some actual →
  Store.nested_at h2 ingredients2 = Some actual →
  Store.same_outcome Store.same_value
    h1 (Store.clean_word word h1) h2 (Store.clean_word word h2) ∧
  Store.same_outcome Store.same_list
    h1 (Store.clean_text iter1 text1 split h1)
    h2 (Store.clean_text iter2 text2 split h2) ∧
  Store.same_outcome Store.same_value
    h1 (Store.precision ing_lst1 i ingredients1 h1)
    h2 (Store.precision ing_lst2 i ingredients2 h2) ∧
  Store.same_outcome Store.same_value
    h1 (Store.recall ing_lst1 i ingredients1 h1)
    h2 (Store.recall ing_lst2 i ingredients2 h2) ∧
  Store.same_outcome Store.same_value
    h1 (Store.F1score ing_lst1 i ingredients1 h1)
    h2 (Store.F1score ing_lst2 i ingredients2 h2).
Proof.
  intros Hit1 Hit2 Ht1 Ht2 Hd1 Hd2 Ha1 Ha2. split_and!.
  - unfold Store.clean_word. rewrite !store_lift_run. apply same_outcome_value.
  - pose proof (store_clean_text iter1 text1 split h1 text Hit1 Ht1) as R1.
    pose proof (store_clean_text iter2 text2 split h2 text Hit2 Ht2) as R2.
    destruct (clean_text text split) as [res|].
    + destruct R1 as (l1 & h1' & -> & Hsub1 & Hl1).
      destruct R2 as (l2 & h2' & -> & Hsub2 & Hl2).
      cbn. split_and!; [done..|]. by exists res.
    + by rewrite R1, R2.
  - rewrite (store_precision _ _ _ _ _ _ Hd1 Ha1), (store_precision _ _ _ _ _ _ Hd2 Ha2).
    apply same_outcome_value.
  - rewrite (store_recall _ _ _ _ _ _ Hd1 Ha1), (store_recall _ _ _ _ _ _ Hd2 Ha2).
    apply same_outcome_value.
  - rewrite (store_F1score _ _ _ _ _ _ Hd1 Ha1), (store_F1score _ _ _ _ _ _ Hd2 Ha2).
    apply same_outcome_value.
Qed.

Lemma valid_iter_reversed : valid_iter reversed_iter.
Proof. intros X. apply reverse_Permutation. Qed.

Lemma evaluations_agree_witness :
  Store.same_outcome Store.same_value
    example_store1 (Store.clean_word " Sugar." example_store1)
    example_store2 (Store.clean_word " Sugar." example_store2) ∧
  Store.same_outcome Store.same_list
    example_store1
    (Store.clean_text elements (Store.RList 1%positive) false example_store1)
    example_store2
    (Store.clean_text reversed_iter (Store.RList 10%positive) false example_store2) ∧
  Store.same_outcome Store.same_value
    example_store1 (Store.precision 4%positive 0 5%positive example_store1)
    example_store2 (Store.precision 13%positive 0 14%positive example_store2) ∧
  Store.same_outcome Store.same_value
    example_store1 (Store.recall 4%positive 0 5%positive example_store1)
    example_store2 (Store.recall 13%positive 0 14%positive example_store2) ∧
  Store.same_outcome Store.same_value
    example_store1 (Store.F1score 4%positive 0 5%positive example_store1)
    example_store2 (Store.F1score 13%positive 0 14%positive example_store2).
Proof.
  apply (evaluations_agree example_store1 example_store2 elements reversed_iter
           " Sugar." (Store.RList 1%positive) (Store.RList 10%positive)
           (PList ["Salt,"; "WATER"; "a"]) false
           4%positive 13%positive 5%positive 14%positive 0
           [["salt"; "water"]] [["salt"; "sugar"]]);
    [apply valid_iter_elements | apply valid_iter_reversed | reflexivity ..].
Defined.

(** * Further properties of the notebook *)

(** ** Precision, recall and F1 on any lists *)

Lemma harmonic_unit (p r : Q) :
  (0 <= p)%Q → (p <= 1)%Q → (0 <= r)%Q → (r <= 1)%Q → (0 < p + r)%Q →
  (0 <= 2 * p * r / (p + r))%Q ∧ (2 * p * r / (p + r) <= 1)%Q.
Proof.
  intros Hp0 Hp1 Hr0 Hr1 Hsum.
  assert (0 <= p * r)%Q as Hpr by (by apply Qmult_le_0_compat).
  assert (0 <= p * (1 - r))%Q as H1 by (apply Qmult_le_0_compat; lra).
  assert (0 <= (1 - p) * r)%Q as H2 by (apply Qmult_le_0_compat; lra).
  split.
  - apply Qle_shift_div_l; [done|]. lra.
  - apply Qle_shift_div_r; [done|]. lra.
Qed.

Lemma hits_zero (d a : list string) : hits d a = 0 ↔ ∀ dw, dw ∈ d → dw ∉ a.
Proof.
  unfold hits. split.
  - intros H dw Hd Ha.
    assert (dw ∈ filter (λ dw, dw ∈ a) d) as Hin by (by apply list_elem_of_filter).
    destruct (filter (λ dw, dw ∈ a) d); [by apply not_elem_of_nil in Hin|].
    simpl in H. lia.
  - intros H. destruct (filter (λ dw, dw ∈ a) d) as [|w l] eqn:E; [done|].
    assert (w ∈ filter (λ dw, dw ∈ a) d) as Hin by (rewrite E; by left).
    apply list_elem_of_filter in Hin as [Ha Hd]. by destruct (H w Hd).
Qed.

Lemma Qdiv_Z_pos (x y : Z) : 0 < x → 0 < y → (0 < inject_Z x / inject_Z y)%Q.
Proof.
  intros Hx Hy. apply Qlt_shift_div_l; rewrite ?Qmult_0_l;
    change 0%Q with (inject_Z 0); by rewrite <- Zlt_Qlt.
Qed.

(** The three ways [F1score] can end once both lists are found: it raises
    on a detection without actual ingredients, it returns 0 when no
    detected token is an actual one, and otherwise it returns the harmonic
    mean of two positive ratios. *)
Lemma F1score_cases ing_lst i ingredients d a :
  Py.getitem ing_lst i = Some d → Py.getitem ingredients i = Some a →
  (d ≠ [] ∧ a = [] ∧ F1score ing_lst i ingredients = None) ∨
  (hits d a = 0 ∧ (d = [] ∨ a ≠ []) ∧ F1score ing_lst i ingredients = Some 0%Q) ∨
  (0 < hits d a ∧ d ≠ [] ∧ a ≠ [] ∧
   let p := (inject_Z (hits d a) / inject_Z (Z.of_nat (length d)))%Q in
   let r := (inject_Z (hits d a) / inject_Z (Z.of_nat (length a)))%Q in
   (0 < p)%Q ∧ (0 < r)%Q ∧
   F1score ing_lst i ingredients = Some (2 * p * r / (p + r))%Q).
Proof.
  intros Hd Ha.
  pose proof (precision_at _ _ _ d a Hd Ha) as Hp.
  pose proof (recall_at _ _ _ d a Hd Ha) as Hr.
  destruct (decide (d = [])) as [->|Hne].
  { right; left. split_and!; [done|by left|].
    by rewrite (F1score_at _ _ _ _ _ Hp Hr). }
  destruct (decide (a = [])) as [->|Hna].
  { left. split_and!; [done..|]. unfold F1score. by rewrite Hp, Hr. }
  pose proof (hits_nonneg d a) as Hh.
  pose proof (length_Z_nonzero d Hne). pose proof (length_Z_nonzero a Hna).
  right. destruct (decide (hits d a = 0)) as [E|E].
  - left. split_and!; [done|by right|].
    rewrite (F1score_at _ _ _ _ _ Hp Hr), E. done.
  - right. split_and!; [lia|done..|]. cbn zeta.
    assert (0 < inject_Z (hits d a) / inject_Z (Z.of_nat (length d)))%Q as Hp0
      by (apply Qdiv_Z_pos; lia).
    assert (0 < inject_Z (hits d a) / inject_Z (Z.of_nat (length a)))%Q as Hr0
      by (apply Qdiv_Z_pos; lia).
    split_and!; [done..|].
    rewrite (F1score_at _ _ _ _ _ Hp Hr).
    rewrite guard_false by (intros [E0 _]; rewrite E0 in Hp0; by apply Qlt_irrefl in Hp0).
    apply truediv_sum; [lra..|].
    intros [E0 _]. rewrite E0 in Hp0. by apply Qlt_irrefl in Hp0.
Qed.

(** X1: whatever the two lists found at index [i], [precision] returns,
    and its value lies between 0 and 1. *)
Theorem precision_bounds ing_lst i ingredients d a :
  Py.getitem ing_lst i = Some d →
  Py.getitem ingredients i = Some a →
  ∃ v, precision ing_lst i ingredients = Some v ∧ (0 <= v)%Q ∧ (v <= 1)%Q.
Proof.
  intros Hd Ha. rewrite (precision_at _ _ _ d a Hd Ha).
  destruct (decide (d = [])) as [->|Hne].
  { exists 0%Q. split_and!; [done| |]; lra. }
  eexists; split; [done|].
  pose proof (hits_nonneg d a). pose proof (hits_le_detected d a).
  pose proof (length_Z_nonzero d Hne).
  split; [apply Qdiv_Z_nonneg | apply Qdiv_Z_le1]; lia.
Qed.

Lemma precision_bounds_witness :
  ∃ v, precision [["salt"; "salt"; "tea"]] 0 [[]] = Some v ∧ (0 <= v)%Q ∧ (v <= 1)%Q.
Proof.
  apply (precision_bounds [["salt"; "salt"; "tea"]] 0 [[]] ["salt"; "salt"; "tea"] []);
    reflexivity.
Defined.

(** X2: with both lists found at index [i], [recall] raises exactly when
    tokens were detected and there is no actual ingredient, and so does
    [F1score]. *)
Theorem recall_raises ing_lst i ingredients d a :
  Py.getitem ing_lst i = Some d →
  Py.getitem ingredients i = Some a →
  (recall ing_lst i ingredients = None ↔ d ≠ [] ∧ a = []) ∧
  (F1score ing_lst i ingredients = None ↔ d ≠ [] ∧ a = []).
Proof.
  intros Hd Ha. split.
  - rewrite (recall_at _ _ _ d a Hd Ha).
    destruct (decide (d = [])) as [->|Hne]; [split; [done|by intros [? _]]|].
    destruct (decide (a = [])) as [->|Hna]; [done|].
    split; [done|by intros [_ ?]].
  - destruct (F1score_cases _ _ _ d a Hd Ha)
      as [(Hne & -> & ->)|[(_ & Hcase & ->)|(_ & Hne & Hna & _ & _ & ->)]].
    + done.
    + split; [done|]. intros [? ->]. by destruct Hcase.
    + split; [done|]. by intros [_ ?].
Qed.

Lemma recall_raises_witness :
  (recall [["salt"]] 0 [[]] = None ↔ ["salt"] ≠ [] ∧ [] = ([] : list string)) ∧
  (F1score [["salt"]] 0 [[]] = None ↔ ["salt"] ≠ [] ∧ [] = ([] : list string)).
Proof. apply (recall_raises [["salt"]] 0 [[]] ["salt"] []); reflexivity. Defined.

(** X3: for a detected list without repeated tokens, and an actual list
    that is non-empty unless the detected list is empty, [F1score]
    returns a value between 0 and 1. *)
Theorem F1score_bounds ing_lst i ingredients d a :
  Py.getitem ing_lst i = Some d →
  Py.getitem ingredients i = Some a →
  NoDup d →
  d = [] ∨ a ≠ [] →
  ∃ f, F1score ing_lst i ingredients = Some f ∧ (0 <= f)%Q ∧ (f <= 1)%Q.
Proof.
  intros Hd Ha ND Hcase.
  destruct (F1score_cases _ _ _ d a Hd Ha)
    as [(Hne & -> & _)|[(_ & _ & ->)|(Hh & Hne & Hna & Hp0 & Hr0 & ->)]].
  - by destruct Hcase.
  - exists 0%Q. split_and!; [done| |]; lra.
  - eexists; split; [done|].
    pose proof (hits_le_detected d a). pose proof (hits_le_actual d a ND).
    pose proof (length_Z_nonzero d Hne). pose proof (length_Z_nonzero a Hna).
    apply harmonic_unit; try lra.
    + apply Qdiv_Z_le1; lia.
    + apply Qdiv_Z_le1; lia.
Qed.

Lemma F1score_bounds_witness :
  ∃ f, F1score [["salt"; "sugar"; "watet"]] 0 [["salt"; "sugar"; "water"; "yeast"]] = Some f
       ∧ (0 <= f)%Q ∧ (f <= 1)%Q.
Proof.
  apply (F1score_bounds
           [["salt"; "sugar"; "watet"]] 0 [["salt"; "sugar"; "water"; "yeast"]]
           ["salt"; "sugar"; "watet"] ["salt"; "sugar"; "water"; "yeast"]);
    [reflexivity | reflexivity | | right; discriminate].
  apply (bool_decide_unpack _). vm_compute. exact I.
Defined.

(** X4: when [F1score] returns, the score is 0 exactly when no detected
    token occurs in the actual list. *)
Theorem F1score_zero_iff ing_lst i ingredients d a f :
  Py.getitem ing_lst i = Some d →
  Py.getitem ingredients i = Some a →
  F1score ing_lst i ingredients = Some f →
  (f == 0)%Q ↔ ∀ dw, dw ∈ d → dw ∉ a.
Proof.
  intros Hd Ha HF. rewrite <- hits_zero.
  destruct (F1score_cases _ _ _ d a Hd Ha)
    as [(_ & _ & E)|[(Hh & _ & E)|(Hh & _ & _ & Hp0 & Hr0 & E)]];
    rewrite E in HF; [done| |]; injection HF as <-.
  - done.
  - split; [|lia]. intros E0. exfalso.
    cbn zeta in Hp0, Hr0.
    set (p := (inject_Z (hits d a) / inject_Z (Z.of_nat (length d)))%Q) in *.
    set (r := (inject_Z (hits d a) / inject_Z (Z.of_nat (length a)))%Q) in *.
    assert (0 < 2 * p * r / (p + r))%Q as Hpos.
    { apply Qlt_shift_div_l; [lra|]. rewrite Qmult_0_l.
      assert (0 < p * r)%Q by (by apply Qmult_lt_0_compat). lra. }
    rewrite E0 in Hpos. by apply Qlt_irrefl in Hpos.
Qed.

Lemma F1score_zero_iff_witness :
  ((0 : Q) == 0)%Q ↔ ∀ dw, dw ∈ ["tea"; "milk"] → dw ∉ ["salt"; "sugar"].
Proof.
  apply (F1score_zero_iff [["tea"; "milk"]] 0 [["salt"; "sugar"]]
           ["tea"; "milk"] ["salt"; "sugar"] 0%Q); reflexivity.
Defined.

Lemma hits_comm (d a : list string) : NoDup d → NoDup a → hits d a = hits a d.
Proof.
  intros NDd NDa. unfold hits. f_equal. apply Permutation_length.
  apply NoDup_Permutation; [by apply NoDup_filter..|].
  intros w. rewrite !list_elem_of_filter. tauto.
Qed.

(** X5: on two non-empty lists without repeated tokens the score does not
    depend on which one is taken as the detection. *)
Theorem F1score_symmetric ing_lst i ingredients d a :
  Py.getitem ing_lst i = Some d →
  Py.getitem ingredients i = Some a →
  NoDup d → NoDup a → d ≠ [] → a ≠ [] →
  ∃ f f', F1score ing_lst i ingredients = Some f ∧
          F1score ingredients i ing_lst = Some f' ∧ (f == f')%Q.
Proof.
  intros Hd Ha NDd NDa Hne Hna.
  destruct (F1score_cases _ _ _ d a Hd Ha)
    as [(_ & ? & _)|[(Hh & _ & ->)|(Hh & _ & _ & Hp0 & Hr0 & ->)]]; [done| |];
  destruct (F1score_cases _ _ _ a d Ha Hd)
    as [(_ & ? & _)|[(Hh' & _ & ->)|(Hh' & _ & _ & Hp0' & Hr0' & ->)]]; try done;
  rewrite (hits_comm a d NDa NDd) in *; try lia.
  - by exists 0%Q, 0%Q.
  - cbn zeta in *.
    set (p := (inject_Z (hits d a) / inject_Z (Z.of_nat (length d)))%Q) in *.
    set (r := (inject_Z (hits d a) / inject_Z (Z.of_nat (length a)))%Q) in *.
    eexists _, _. split_and!; [done..|]. field; repeat split; lra.
Qed.

Lemma F1score_symmetric_witness :
  ∃ f f', F1score [["salt"; "tea"]] 0 [["milk"; "salt"; "sugar"]] = Some f ∧
          F1score [["milk"; "salt"; "sugar"]] 0 [["salt"; "tea"]] = Some f' ∧ (f == f')%Q.
Proof.
  apply (F1score_symmetric [["salt"; "tea"]] 0 [["milk"; "salt"; "sugar"]]
           ["salt"; "tea"] ["milk"; "salt"; "sugar"]);
    [reflexivity | reflexivity | | | discriminate | discriminate];
    apply (bool_decide_unpack _); vm_compute; exact I.
Defined.

(** ** Cleaning words and texts *)

Lemma lowercase_char_fixed c :
  is_lowercase_letter c = true → Py.lower_char c = c ∧ is_ascii_letter c = true.
Proof. by destruct c as [[] [] [] [] [] [] [] []]. Qed.

Lemma lowercase_fixed v :
  Py.all is_lowercase_letter v = true →
  Py.keep is_ascii_letter (Py.lower v) = v.
Proof.
  induction v as [|c v IH]; [done|].
  cbn [Py.all Py.lower Py.keep]. intros [Hc Hv]%andb_true_iff.
  destruct (lowercase_char_fixed c Hc) as [-> ->]. by rewrite IH.
Qed.

(** A result of [clean_word] is left as it is by [clean_word]. *)
Lemma spec_clean_word_fixed w : spec_clean_word (spec_clean_word w) = spec_clean_word w.
Proof.
  destruct (decide (spec_clean_word w = "")) as [->|Hne]; [done|].
  destruct (spec_clean_word_token w Hne) as [Hlen Hall].
  set (v := spec_clean_word w) in *.
  unfold spec_clean_word at 1. cbn zeta. rewrite (lowercase_fixed v Hall).
  case_decide; [lia|done].
Qed.

(** X6: cleaning a cleaned word changes nothing. *)
Theorem clean_word_idempotent (w : string) :
  clean_word w ≫= clean_word = clean_word w.
Proof.
  rewrite clean_word_kept, <- spec_clean_word_ltb. cbn [mbind option_bind].
  rewrite clean_word_kept, <- spec_clean_word_ltb.
  by rewrite spec_clean_word_fixed.
Qed.






Lemma elem_of_spec_sorted_distinct (xs : list string) (w : string) :
  w ∈ spec_sorted_distinct xs ↔ w ≠ "" ∧ w ∈ xs.
Proof.
  unfold spec_sorted_distinct.
  by rewrite merge_sort_Permutation, elem_of_remove_dups, list_elem_of_filter.
Qed.

Lemma spec_sorted_distinct_sorted (xs : list string) :
  StronglySorted String.le (spec_sorted_distinct xs) ∧ NoDup (spec_sorted_distinct xs).
Proof.
  unfold spec_sorted_distinct. split.
  - apply StronglySorted_merge_sort; apply _.
  - rewrite merge_sort_Permutation. apply NoDup_remove_dups.
Qed.

(** A sorted list without duplicates is determined by its members. *)
Lemma sorted_NoDup_unique (l k : list string) :
  StronglySorted String.le l → NoDup l →
  StronglySorted String.le k → NoDup k →
  (∀ w, w ∈ l ↔ w ∈ k) → l = k.
Proof.
  intros Sl Nl Sk Nk H. apply (StronglySorted_unique String.le); [done..|].
  by apply NoDup_Permutation.
Qed.

Lemma spec_sorted_distinct_ext (xs ys : list string) :
  same_words xs ys → spec_sorted_distinct xs = spec_sorted_distinct ys.
Proof.
  intros H.
  destruct (spec_sorted_distinct_sorted xs), (spec_sorted_distinct_sorted ys).
  apply sorted_NoDup_unique; [done..|].
  intros w. rewrite !elem_of_spec_sorted_distinct. specialize (H w). tauto.
Qed.

(** Every list [clean_text] returns is the sorted list of the distinct
    non-empty cleanings of some words. *)
Lemma clean_text_shape text split l :
  clean_text text split = Some l →
  ∃ ws, l = spec_sorted_distinct (spec_clean_word <$> ws).
Proof.
  unfold clean_text. rewrite (clean_text_iter_eq _ _ _ valid_iter_elements).
  destruct split; cbn [negb].
  - destruct text as [s|ws]; [|done].
    destruct (Re.sub "[0-9]" " " s) as [t1|]; [|done]. cbn [mbind option_bind].
    destruct (Re.sub _ " " t1) as [t2|]; [|done]. cbn [mbind option_bind].
    intros [= <-]. eauto.
  - intros [= <-]. eauto.
Qed.

Lemma spec_sorted_distinct_clean_fixed (ws : list string) :
  let l := spec_sorted_distinct (spec_clean_word <$> ws) in
  spec_sorted_distinct (spec_clean_word <$> l) = l.
Proof.
  cbn zeta. set (l := spec_sorted_distinct (spec_clean_word <$> ws)).
  destruct (spec_sorted_distinct_sorted (spec_clean_word <$> l)).
  destruct (spec_sorted_distinct_sorted (spec_clean_word <$> ws)).
  apply sorted_NoDup_unique; [done..|].
  intros w. rewrite elem_of_spec_sorted_distinct, list_elem_of_fmap.
  unfold l. setoid_rewrite elem_of_spec_sorted_distinct.
  setoid_rewrite list_elem_of_fmap. split.
  - intros (Hne & x & -> & _ & w0 & -> & Hw0).
    rewrite spec_clean_word_fixed in *. eauto.
  - intros (Hne & w0 & -> & Hw0). split; [done|].
    exists (spec_clean_word w0). rewrite spec_clean_word_fixed. eauto.
Qed.

(** X8: a list returned by [clean_text] is returned unchanged when it is
    cleaned again as a list of words. *)
Theorem clean_text_idempotent text split l :
  clean_text text split = Some l → clean_text (PList l) false = Some l.
Proof.
  intros [ws ->]%clean_text_shape.
  unfold clean_text. rewrite (clean_text_iter_eq _ _ _ valid_iter_elements).
  cbn [negb]. f_equal. apply spec_sorted_distinct_clean_fixed.
Qed.

Lemma clean_text_idempotent_witness :
  clean_text (PList ["sugar"; "water"]) false = Some ["sugar"; "water"].
Proof.
  apply (clean_text_idempotent (PStr "Water, SUGAR (2%), e330 a water") true).
  vm_compute. reflexivity.
Defined.

Lemma spec_clean_word_char c : spec_clean_word (String c "") = "".
Proof.
  rewrite spec_clean_word_ltb. cbn [Py.lower Py.keep].
  by destruct (is_ascii_letter (Py.lower_char c)).
Qed.

(** X9: a [str] passed with [split=False] is iterated character by
    character, each character is cleaned to the empty string, and
    [clean_text] returns the empty list. *)
Theorem clean_text_str_unsplit (s : string) : clean_text (PStr s) false = Some [].
Proof.
  unfold clean_text. rewrite (clean_text_iter_eq _ _ _ valid_iter_elements).
  cbn [negb]. f_equal.
  destruct (spec_sorted_distinct (spec_clean_word <$> Py.chars s)) as [|w l] eqn:E; [done|].
  assert (w ∈ spec_sorted_distinct (spec_clean_word <$> Py.chars s)) as Hw
    by (rewrite E; by left).
  apply elem_of_spec_sorted_distinct in Hw as [Hne Hw]. exfalso. apply Hne.
  clear E. induction s as [|c s IH]; cbn in Hw; [by apply not_elem_of_nil in Hw|].
  apply elem_of_cons in Hw as [->|Hw]; [apply spec_clean_word_char|by apply IH].
Qed.

(** X10: with [split=False] the result depends only on which words the
    list holds, not on their order or on how often each occurs. *)
Theorem clean_text_members (l l' : list string) :
  (∀ w, w ∈ l ↔ w ∈ l') →
  clean_text (PList l) false = clean_text (PList l') false.
Proof.
  intros H. unfold clean_text.
  rewrite !(clean_text_iter_eq _ _ _ valid_iter_elements). cbn [negb]. f_equal.
  apply spec_sorted_distinct_ext. intros w _. rewrite !list_elem_of_fmap.
  by setoid_rewrite H.
Qed.

Lemma clean_text_members_witness :
  clean_text (PList ["Salt"; "sugar"; "Salt"]) false
  = clean_text (PList ["sugar"; "Salt"]) false.
Proof.
  apply (clean_text_members ["Salt"; "sugar"; "Salt"] ["sugar"; "Salt"]).
  intros w. rewrite !elem_of_cons, !elem_of_nil. tauto.
Defined.

Lemma translate_app f s t :
  Py.translate f (s +:+ t) = Py.translate f s +:+ Py.translate f t.
Proof.
  induction s as [|c s IH]; [done|].
  rewrite str_app_cons. cbn [Py.translate]. by rewrite IH, str_app_cons.
Qed.

(** With [split=True], [clean_text] cleans the whitespace-separated
    tokens of the text in which every character has gone through
    [blank_fn]. *)
Lemma clean_text_split_eq (s : string) :
  clean_text (PStr s) true
  = Some (spec_sorted_distinct (spec_clean_word <$> Py.split (Py.translate blank_fn s))).
Proof.
  unfold clean_text. rewrite (clean_text_iter_eq _ _ _ valid_iter_elements).
  cbn [negb]. unfold Re.sub. rewrite compile_digits, compile_punctuation.
  cbn [mbind option_bind]. rewrite !sub_go_each by done.
  rewrite translate_translate. reflexivity.
Qed.

Lemma blank_fn_separator c :
  is_digit c = true ∨ (is_punctuation c = true ∧ c ≠ "\"%char) →
  blank_fn c = " "%char.
Proof.
  destruct c as [[] [] [] [] [] [] [] []]; cbn; intros [?|[? ?]]; done.
Qed.

(** X11: a digit, or a punctuation character other than the backslash,
    separates words exactly as a space does. *)
Theorem clean_text_separator (s1 s2 : string) (c : ascii) :
  is_digit c = true ∨ (is_punctuation c = true ∧ c ≠ "\"%char) →
  clean_text (PStr (s1 +:+ String c s2)) true
  = clean_text (PStr (s1 +:+ String " " s2)) true.
Proof.
  intros Hc. rewrite !clean_text_split_eq, !translate_app. cbn [Py.translate].
  by rewrite (blank_fn_separator c Hc).
Qed.

Lemma clean_text_separator_witness :
  clean_text (PStr ("salt" +:+ String "/" "pepper")) true
  = clean_text (PStr ("salt" +:+ String " " "pepper")) true.
Proof.
  apply (clean_text_separator "salt" "pepper" "/"). right. split; [reflexivity|discriminate].
Defined.

(** *** Characters that are deleted *)








(** ** The words of a response *)

Lemma words_Forall2 ty tk (dets : list (gmap string string)) ws :
  words ty tk dets = Some ws →
  Forall2 (λ (text : gmap string string) y,
             (text !! ty = Some "WORD" ∧ text !! tk = Some y) ∨
             (is_Some (text !! ty) ∧ text !! ty ≠ Some "WORD" ∧ y = ""))
          dets ws.
Proof.
  intros H%mapM_Some_1. eapply Forall2_impl; [exact H|].
  intros text y. cbn. destruct (text !! ty) as [t|]; cbn; [|done].
  case_decide as E; [subst t; by left|].
  intros [= <-]. right. split_and!; [by eexists| congruence |done].
Qed.

Lemma words_members ty tk (dets : list (gmap string string)) ws :
  words ty tk dets = Some ws →
  ∀ x, x ≠ "" → (x ∈ ws ↔ x ∈ word_texts ty tk dets).
Proof.
  intros H%words_Forall2 x Hne.
  induction H as [|text y dets ws Hy _ IH]; [done|].
  unfold word_texts in *. cbn [omap list_omap]. rewrite elem_of_cons, IH.
  destruct Hy as [[Hty Htk]|(_ & Hty & ->)].
  - rewrite decide_True by done. rewrite Htk. by rewrite elem_of_cons.
  - rewrite decide_False by done. split; [|by right].
    intros [->|?]; [by destruct Hne|done].
Qed.

(** X13: the empty strings that stand for the entries that are not words
    (lines, pages) leave no trace: the cleaned detection is that of the
    texts of the [WORD] entries alone, and there is one string per
    entry. *)
Theorem words_cleaned ty tk (dets : list (gmap string string)) ws :
  words ty tk dets = Some ws →
  length ws = length dets ∧
  clean_text (PList ws) false = clean_text (PList (word_texts ty tk dets)) false.
Proof.
  intros H. split.
  { symmetry. by eapply length_mapM. }
  unfold clean_text. rewrite !(clean_text_iter_eq _ _ _ valid_iter_elements).
  cbn [negb]. f_equal. apply spec_sorted_distinct_ext. intros w Hne.
  rewrite !list_elem_of_fmap. split; intros (x & -> & Hx); exists x; (split; [done|]).
  - apply (words_members _ _ _ _ H); [|done]. by intros ->.
  - apply (words_members _ _ _ _ H); [|done]. by intros ->.
Qed.

Lemma words_cleaned_witness :
  length [""; "INGREDIENTS:"; "water"; ""] = 4%nat ∧
  clean_text (PList [""; "INGREDIENTS:"; "water"; ""]) false
  = clean_text (PList (word_texts "BlockType" "Text"
      [ {[ "BlockType" := "LINE"; "Text" := "INGREDIENTS: water" ]};
        {[ "BlockType" := "WORD"; "Text" := "INGREDIENTS:" ]};
        {[ "BlockType" := "WORD"; "Text" := "water" ]};
        {[ "BlockType" := "PAGE" ]} ])) false.
Proof.
  apply (words_cleaned "BlockType" "Text"
      [ {[ "BlockType" := "LINE"; "Text" := "INGREDIENTS: water" ]};
        {[ "BlockType" := "WORD"; "Text" := "INGREDIENTS:" ]};
        {[ "BlockType" := "WORD"; "Text" := "water" ]};
        {[ "BlockType" := "PAGE" ]} ]).
  vm_compute. reflexivity.
Defined.

(** X14: the comprehension raises [KeyError] exactly when some entry has
    no type, or is a [WORD] without text; an entry of another type needs
    no text. *)
Theorem words_returns ty tk (dets : list (gmap string string)) :
  is_Some (words ty tk dets) ↔
  Forall (λ text : gmap string string,
            is_Some (text !! ty) ∧ (text !! ty = Some "WORD" → is_Some (text !! tk)))
         dets.
Proof.
  unfold words. rewrite mapM_is_Some. apply Forall_iff. intros text. cbn.
  destruct (text !! ty) as [t|]; cbn.
  - case_decide as E.
    + subst t. split; [by intros ?; split; [eexists|]|]. intros [_ H]. by apply H.
    + split; [|by eexists]. intros _. split; [by eexists|]. congruence.
  - split; [by intros [? ?]|]. by intros [[? ?] _].
Qed.

(** ** The cache and the scores *)

Lemma split_on_go_nonempty sep cur s : Py.split_on_go sep cur s ≠ [].
Proof.
  revert cur. induction s as [|c s IH]; intros cur; cbn; [done|].
  case_decide; [done|apply IH].
Qed.

Lemma keep_is_letters s : letters_only (Py.keep is_ascii_letter s).
Proof.
  unfold letters_only. induction s as [|c s IH]; [done|].
  cbn [Py.keep]. destruct (is_ascii_letter c) eqn:E; [|done].
  cbn [Py.all]. by rewrite E, IH.
Qed.

(** What a reload returns for one image: at least one string, each made
    of letters only. *)
Lemma reload_cell_shape (l : list string) :
  reload_cell l ≠ [] ∧ Forall letters_only (reload_cell l).
Proof.
  unfold reload_cell, Py.split_on. split.
  - pose proof (split_on_go_nonempty "," "" (Repr.str_list l)) as H.
    by destruct (Py.split_on_go "," "" (Repr.str_list l)).
  - apply Forall_fmap, Forall_forall. intros x _. apply keep_is_letters.
Qed.

Lemma reload_cell_fixed (l : list string) : reload_cell (reload_cell l) = reload_cell l.
Proof. destruct (reload_cell_shape l). by apply reload_cell_tokens. Qed.

(** X15: whatever lists are saved, saving what was reloaded and reloading
    it again changes nothing more: the first reload is the only one that
    can differ from what was saved. *)
Theorem pyt_reload_stable (saved : list (list string)) :
  ∃ reloaded,
    pyt_ingredients (pyt_output saved) = Some reloaded ∧
    pyt_ingredients (pyt_output reloaded) = Some reloaded.
Proof.
  exists (reload_cell <$> saved). rewrite !pyt_ingredients_pyt_output.
  split; [done|]. f_equal. rewrite <- list_fmap_compose.
  apply list_fmap_ext. intros _ l _. apply reload_cell_fixed.
Qed.

(** X16: a reload returns one list per saved image, and none of them is
    empty: on reloaded detections the guard [len(detected_words) == 0]
    of [precision] and [recall] never fires. *)
Theorem pyt_reload_nonempty (saved : list (list string)) :
  ∃ reloaded,
    pyt_ingredients (pyt_output saved) = Some reloaded ∧
    length reloaded = length saved ∧
    Forall (λ l, l ≠ [] ∧ Forall letters_only l) reloaded.
Proof.
  exists (reload_cell <$> saved). rewrite pyt_ingredients_pyt_output.
  split_and!; [done|apply length_fmap|].
  apply Forall_fmap, Forall_forall. intros l _. apply reload_cell_shape.
Qed.

Lemma getitem_fmap {A B} (f : A → B) (l : list A) (i : Z) :
  Py.getitem (f <$> l) i = f <$> Py.getitem l i.
Proof.
  unfold Py.getitem. rewrite length_fmap.
  repeat case_decide; try done; apply list_lookup_fmap.
Qed.

(** [F1score] reads its first argument at index [i] only. *)
Lemma F1score_reads ing_lst ing_lst' i ingredients :
  Py.getitem ing_lst i = Py.getitem ing_lst' i →
  F1score ing_lst i ingredients = F1score ing_lst' i ingredients.
Proof. intros H. unfold F1score, precision, recall. by rewrite H. Qed.

(** X17: where the actual list is non-empty and holds no empty string,
    the score computed from the reloaded detections is the score computed
    from the detections that were saved. *)
Theorem F1score_reloaded (saved reloaded ingredients : list (list string)) i a :
  Forall (Forall cleaned_token) saved →
  pyt_ingredients (pyt_output saved) = Some reloaded →
  Py.getitem ingredients i = Some a → a ≠ [] → "" ∉ a →
  F1score reloaded i ingredients = F1score saved i ingredients.
Proof.
  intros Hclean Hreload Ha Hna Hempty.
  rewrite pyt_ingredients_pyt_output in Hreload. injection Hreload as <-.
  destruct (Py.getitem saved i) as [d|] eqn:Hd.
  2: { apply F1score_reads. by rewrite getitem_fmap, Hd. }
  assert (Forall cleaned_token d) as Hdclean.
  { rewrite Forall_forall in Hclean. apply Hclean. by eapply getitem_elem_of. }
  destruct (decide (d = [])) as [->|Hne].
  - assert (Py.getitem (reload_cell <$> saved) i = Some [""]) as Hd'
      by (by rewrite getitem_fmap, Hd).
    destruct (F1score_cases _ _ _ _ _ Hd' Ha)
      as [(_ & ? & _)|[(_ & _ & ->)|(Hh & _)]]; [done| |].
    + destruct (F1score_cases _ _ _ _ _ Hd Ha)
        as [(? & _)|[(_ & _ & ->)|(_ & ? & _)]]; done.
    + assert (hits [""] a = 0) as E; [|lia].
      apply hits_zero. by intros dw ->%list_elem_of_singleton.
  - apply F1score_reads. rewrite getitem_fmap, Hd. cbn. f_equal.
    apply reload_cell_tokens; [done|].
    eapply Forall_impl; [exact Hdclean|]. apply cleaned_token_letters.
Qed.

Lemma F1score_reloaded_witness :
  F1score [["salt"; "sugar"]; [""]] 1 [["salt"]; ["tea"]]
  = F1score [["salt"; "sugar"]; []] 1 [["salt"]; ["tea"]].
Proof.
  apply (F1score_reloaded [["salt"; "sugar"]; []] [["salt"; "sugar"]; [""]]
           [["salt"]; ["tea"]] 1 ["tea"]).
  - apply (bool_decide_unpack _). vm_compute. exact I.
  - vm_compute. reflexivity.
  - reflexivity.
  - discriminate.
  - apply (bool_decide_unpack _). vm_compute. exact I.
Defined.

(** X18: for an image without detected token and without actual
    ingredient, the saved detections are scored 0 and the reloaded ones
    raise. *)
Theorem F1score_reloaded_raises (saved ingredients : list (list string)) i :
  Py.getitem saved i = Some [] →
  Py.getitem ingredients i = Some [] →
  ∃ reloaded,
    pyt_ingredients (pyt_output saved) = Some reloaded ∧
    F1score saved i ingredients = Some 0%Q ∧
    F1score reloaded i ingredients = None.
Proof.
  intros Hd Ha. exists (reload_cell <$> saved).
  rewrite pyt_ingredients_pyt_output. split_and!; [done| |].
  - destruct (F1score_cases _ _ _ _ _ Hd Ha)
      as [(? & _)|[(_ & _ & ->)|(_ & ? & _)]]; done.
  - assert (Py.getitem (reload_cell <$> saved) i = Some [""]) as Hd'
      by (by rewrite getitem_fmap, Hd).
    destruct (F1score_cases _ _ _ _ _ Hd' Ha)
      as [(_ & _ & ->)|[(_ & [?|?] & _)|(_ & _ & ? & _)]]; done.
Qed.

Lemma F1score_reloaded_raises_witness :
  ∃ reloaded,
    pyt_ingredients (pyt_output [["salt"]; []]) = Some reloaded ∧
    F1score [["salt"]; []] 1 [["salt"]; []] = Some 0%Q ∧
    F1score reloaded 1 [["salt"]; []] = None.
Proof.
  apply (F1score_reloaded_raises [["salt"]; []] [["salt"]; []] 1); reflexivity.
Defined.

(** ** Lists of scores and their average *)

Lemma F1score_inv ing_lst i ingredients f :
  F1score ing_lst i ingredients = Some f →
  ∃ d a, Py.getitem ing_lst i = Some d ∧ Py.getitem ingredients i = Some a.
Proof.
  unfold F1score. intros H.
  destruct (precision ing_lst i ingredients) as [p|] eqn:Hp; [|done].
  by eapply precision_inv.
Qed.

(** A score returned for a detection without repeated tokens lies
    between 0 and 1. *)
Lemma F1score_unit ing_lst i ingredients f :
  F1score ing_lst i ingredients = Some f →
  (∀ d, Py.getitem ing_lst i = Some d → NoDup d) →
  (0 <= f)%Q ∧ (f <= 1)%Q.
Proof.
  intros HF ND. destruct (F1score_inv _ _ _ _ HF) as (d & a & Hd & Ha).
  specialize (ND d Hd).
  destruct (F1score_cases _ _ _ d a Hd Ha)
    as [(_ & _ & E)|[(_ & _ & E)|(Hh & Hne & Hna & Hp0 & Hr0 & E)]];
    rewrite E in HF; [done| |]; injection HF as <-.
  - split; lra.
  - pose proof (hits_le_detected d a). pose proof (hits_le_actual d a ND).
    pose proof (length_Z_nonzero d Hne). pose proof (length_Z_nonzero a Hna).
    apply harmonic_unit; try lra.
    + apply Qdiv_Z_le1; lia.
    + apply Qdiv_Z_le1; lia.
Qed.

Lemma inject_Z_succ (n : nat) :
  (inject_Z (Z.of_nat (S n)) == inject_Z (Z.of_nat n) + 1)%Q.
Proof. rewrite Nat2Z.inj_succ. unfold Z.succ. by rewrite inject_Z_plus. Qed.

Lemma foldl_Qplus_bounds (l : list Q) (acc : Q) :
  Forall (λ f, (0 <= f)%Q ∧ (f <= 1)%Q) l →
  (acc <= foldl Qplus acc l)%Q ∧
  (foldl Qplus acc l <= acc + inject_Z (Z.of_nat (length l)))%Q.
Proof.
  intros H. revert acc. induction H as [|f l [Hf0 Hf1] _ IH]; intros acc.
  - cbn [foldl length]. change (inject_Z (Z.of_nat 0)) with 0%Q. split; lra.
  - cbn [foldl length]. destruct (IH (acc + f)%Q) as [IH1 IH2].
    rewrite inject_Z_succ. split; lra.
Qed.

(** The average of [n] numbers between 0 and 1 is between 0 and 1. *)
Lemma average_unit (ss : list Q) (n : nat) :
  (0 < n)%nat → length ss = n →
  Forall (λ f, (0 <= f)%Q ∧ (f <= 1)%Q) ss →
  ∃ avg, average ss (Z.of_nat n) = Some avg ∧ (0 <= avg)%Q ∧ (avg <= 1)%Q.
Proof.
  intros Hn Hlen Hss. unfold average, truediv.
  assert (0 < inject_Z (Z.of_nat n))%Q as Hpos.
  { change 0%Q with (inject_Z 0). rewrite <- Zlt_Qlt. lia. }
  assert (Qeq_bool (inject_Z (Z.of_nat n)) 0 = false) as ->
    by (apply Qeq_bool_false; lra).
  eexists; split; [done|].
  destruct (foldl_Qplus_bounds ss 0%Q Hss) as [H0 H1]. rewrite Hlen in H1.
  unfold qsum. split.
  - apply Qle_shift_div_l; [done|]. lra.
  - apply Qle_shift_div_r; [done|]. lra.
Qed.

Lemma scores_unit (n : nat) (detected ingredients : list (list string)) ss :
  mapM (λ i : nat, F1score detected (Z.of_nat i) ingredients) (seq 0 n) = Some ss →
  Forall (NoDup (A:=string)) detected →
  length ss = n ∧ Forall (λ f, (0 <= f)%Q ∧ (f <= 1)%Q) ss.
Proof.
  intros Hss ND. split.
  { rewrite <- (length_mapM _ _ _ Hss). apply length_seq. }
  apply mapM_Some_1 in Hss. rewrite Forall_forall in ND.
  induction Hss as [|i f js ss Hf _ IH]; constructor; [|done].
  apply (F1score_unit _ _ _ _ Hf). intros d Hd. apply ND.
  by eapply getitem_elem_of.
Qed.

(** X19: when the [n > 0] scores of detections without repeated tokens
    have all been computed, their printed average lies between 0 and 1. *)
Theorem average_score_bounds (n : nat) (detected ingredients : list (list string)) ss :
  pyt_scores n detected ingredients = Some ss →
  Forall (NoDup (A:=string)) detected →
  (0 < n)%nat →
  ∃ avg, average ss (Z.of_nat n) = Some avg ∧ (0 <= avg)%Q ∧ (avg <= 1)%Q.
Proof.
  intros Hss ND Hn. destruct (scores_unit n _ _ _ Hss ND) as [Hlen Hunit].
  by apply average_unit.
Qed.

Lemma average_score_bounds_witness :
  ∃ avg, average [(2 # 2)%Q; 0%Q] (Z.of_nat 2) = Some avg ∧ (0 <= avg)%Q ∧ (avg <= 1)%Q.
Proof.
  apply (average_score_bounds 2 [["salt"]; ["tea"]] [["salt"]; ["milk"]]).
  - vm_compute. reflexivity.
  - apply (bool_decide_unpack _). vm_compute. exact I.
  - lia.
Defined.

(** ** Scoring the three engines on the top images *)

Lemma getitem_nat_lt {A} (l : list A) (i : nat) x :
  Py.getitem l (Z.of_nat i) = Some x → (i < length l)%nat.
Proof.
  unfold Py.getitem. rewrite decide_True by lia. rewrite Nat2Z.id.
  apply lookup_lt_Some.
Qed.

Lemma getitem_nat {A} (l : list A) (i : nat) : Py.getitem l (Z.of_nat i) = l !! i.
Proof. unfold Py.getitem. rewrite decide_True by lia. by rewrite Nat2Z.id. Qed.

(** One row of scores: 210 of them, which needs 210 detections and 210
    actual lists. *)
Lemma row_shape (td ti : list (list string)) row :
  mapM (λ i : nat, F1score td (Z.of_nat i) ti) (seq 0 210) = Some row →
  length row = 210%nat ∧ (210 ≤ length td)%nat ∧ (210 ≤ length ti)%nat.
Proof.
  intros H. split.
  { rewrite <- (length_mapM _ _ _ H). apply length_seq. }
  apply mapM_Some_1 in H.
  destruct (Forall2_lookup_l _ _ _ 209%nat 209%nat H) as (f & _ & Hf).
  { reflexivity. }
  destruct (F1score_inv _ _ _ _ Hf) as (d & a & Hd & Ha).
  apply getitem_nat_lt in Hd, Ha. lia.
Qed.

Lemma zip_three {A B} (a b c : A) (rest : list A) (x : B) :
  zip (a :: b :: c :: rest) (replicate 3 x) = [(a, x); (b, x); (c, x)].
Proof. cbn. by destruct rest. Qed.

(** X20: when [top_scores] returns, it returns three rows of 210 scores:
    there were at least three detection lists, of which the first three
    are scored, and these and the ingredient list have at least 210
    entries each. *)
Theorem top_scores_shape (top_detections : list (list (list string)))
    (top_ingredients : list (list string)) rows :
  top_scores top_detections top_ingredients = Some rows →
  length rows = 3%nat ∧ Forall (λ row, length row = 210%nat) rows ∧
  (3 ≤ length top_detections)%nat ∧
  Forall (λ td, 210 ≤ length td)%nat (take 3 top_detections) ∧
  (210 ≤ length top_ingredients)%nat.
Proof.
  unfold top_scores. intros H.
  destruct (mapM _ (zip top_detections (replicate 3 top_ingredients)))
    as [top_s|] eqn:E; [|done].
  cbn [mbind option_bind] in H.
  destruct top_detections as [|a [|b [|c rest]]].
  - cbn in E. by injection E as <-.
  - cbn [zip zip_with replicate mapM] in E.
    destruct (mapM _ (seq 0 210)) as [r0|]; [|done]. cbn in E. by injection E as <-.
  - cbn [zip zip_with replicate mapM] in E.
    destruct (mapM (λ i : nat, F1score a _ _) (seq 0 210)) as [r0|]; [|done].
    destruct (mapM (λ i : nat, F1score b _ _) (seq 0 210)) as [r1|]; [|done].
    cbn in E. by injection E as <-.
  - rewrite zip_three in E. cbn [mapM] in E.
    destruct (mapM (λ i : nat, F1score a _ _) (seq 0 210)) as [r0|] eqn:E0; [|done].
    destruct (mapM (λ i : nat, F1score b _ _) (seq 0 210)) as [r1|] eqn:E1; [|done].
    destruct (mapM (λ i : nat, F1score c _ _) (seq 0 210)) as [r2|] eqn:E2; [|done].
    cbn [mbind option_bind mret option_ret] in E.
    injection E as <-. cbn [lookup list_lookup mbind option_bind] in H.
    destruct (row_shape _ _ _ E0) as (? & ? & ?).
    destruct (row_shape _ _ _ E1) as (? & ? & ?).
    destruct (row_shape _ _ _ E2) as (? & ? & ?).
    assert (rows = [r0; r1; r2]) as ->.
    { destruct (average r0 210); [|done]. destruct (average r1 210); [|done].
      destruct (average r2 210); [|done]. by injection H as <-. }
    split_and!; [done| |cbn; lia| |done]; repeat constructor; done.
Qed.

Lemma top_scores_shape_witness :
  length (replicate 3 (replicate 210 (2 # 2)%Q)) = 3%nat ∧
  Forall (λ row, length row = 210%nat) (replicate 3 (replicate 210 (2 # 2)%Q)) ∧
  (3 ≤ length (replicate 4 (replicate 210 ["salt"])))%nat ∧
  Forall (λ td, 210 ≤ length td)%nat (take 3 (replicate 4 (replicate 210 ["salt"]))) ∧
  (210 ≤ length (replicate 210 ["salt"]))%nat.
Proof.
  apply (top_scores_shape (replicate 4 (replicate 210 ["salt"]))
           (replicate 210 ["salt"])).
  vm_compute. reflexivity.
Defined.

Lemma row_returns (td ti : list (list string)) :
  (210 ≤ length td)%nat → Forall (NoDup (A:=string)) td →
  (210 ≤ length ti)%nat → Forall (λ a, a ≠ []) ti →
  ∃ row, mapM (λ i : nat, F1score td (Z.of_nat i) ti) (seq 0 210) = Some row ∧
         Forall (λ f, (0 <= f)%Q ∧ (f <= 1)%Q) row ∧
         is_Some (average row 210).
Proof.
  intros Htd ND Hti Hne.
  destruct (mapM_is_Some_2 (λ i : nat, F1score td (Z.of_nat i) ti) (seq 0 210))
    as [row Hrow].
  { apply Forall_forall. intros i [_ Hi]%elem_of_seq. cbn.
    destruct (lookup_lt_is_Some_2 td i) as [d Hd]; [lia|].
    destruct (lookup_lt_is_Some_2 ti i) as [a Ha]; [lia|].
    rewrite <- getitem_nat in Hd, Ha.
    assert (a ≠ []) as Hna.
    { rewrite Forall_forall in Hne. apply Hne. by eapply getitem_elem_of. }
    destruct (F1score_cases _ _ _ d a Hd Ha)
      as [(_ & ? & _)|[(_ & _ & ->)|(_ & _ & _ & _ & _ & ->)]]; [done|by eexists..]. }
  exists row. destruct (scores_unit 210 td ti row Hrow ND) as [Hlen Hunit].
  split_and!; [done..|].
  destruct (average_unit row 210) as (avg & Havg & _); [lia|done..|].
  by exists avg.
Qed.

(** X21: with at least three detection lists, the first three of at least
    210 detections without repeated tokens, and at least 210 actual
    lists, none of them empty, [top_scores] returns, and every score is
    between 0 and 1. *)
Theorem top_scores_returns (top_detections : list (list (list string)))
    (top_ingredients : list (list string)) :
  (3 ≤ length top_detections)%nat →
  Forall (λ td, (210 ≤ length td)%nat ∧ Forall (NoDup (A:=string)) td)
         (take 3 top_detections) →
  (210 ≤ length top_ingredients)%nat →
  Forall (λ a, a ≠ []) top_ingredients →
  ∃ rows, top_scores top_detections top_ingredients = Some rows ∧
          Forall (Forall (λ f, (0 <= f)%Q ∧ (f <= 1)%Q)) rows.
Proof.
  intros Hlen Htds Hti Hne.
  destruct top_detections as [|a [|b [|c rest]]]; cbn in Hlen; try lia.
  cbn [take] in Htds.
  apply Forall_cons in Htds as [[Ha NDa] Htds].
  apply Forall_cons in Htds as [[Hb NDb] Htds].
  apply Forall_cons in Htds as [[Hc NDc] _].
  destruct (row_returns a top_ingredients Ha NDa Hti Hne) as (r0 & E0 & U0 & [v0 A0]).
  destruct (row_returns b top_ingredients Hb NDb Hti Hne) as (r1 & E1 & U1 & [v1 A1]).
  destruct (row_returns c top_ingredients Hc NDc Hti Hne) as (r2 & E2 & U2 & [v2 A2]).
  exists [r0; r1; r2]. split; [|by repeat constructor].
  unfold top_scores. rewrite zip_three. cbn [mapM]. rewrite E0, E1, E2.
  cbn [mbind option_bind mret option_ret lookup list_lookup].
  by rewrite A0, A1, A2.
Qed.

Lemma top_scores_returns_witness :
  ∃ rows, top_scores (replicate 3 (replicate 210 ["salt"; "tea"]))
                     (replicate 210 ["salt"]) = Some rows ∧
          Forall (Forall (λ f, (0 <= f)%Q ∧ (f <= 1)%Q)) rows.
Proof.
  apply (top_scores_returns (replicate 3 (replicate 210 ["salt"; "tea"]))
           (replicate 210 ["salt"])).
  - vm_compute. lia.
  - apply Forall_take, Forall_replicate. split; [vm_compute; lia|].
    apply Forall_replicate. apply (bool_decide_unpack _). vm_compute. exact I.
  - vm_compute. lia.
  - apply Forall_forall. intros d [-> _]%elem_of_replicate. discriminate.
Defined.

(** ** The top detections when at most 210 were scored *)

Lemma mapM_Permutation {A B} (f : A → option B) (l l' : list A) (k : list B) :
  l ≡ₚ l' → mapM f l = Some k → ∃ k', mapM f l' = Some k' ∧ k ≡ₚ k'.
Proof.
  intros HP. revert k.
  induction HP as [|x l l' _ IH|x y l|l l' l'' _ IH1 _ IH2]; intros k.
  - intros [= <-]. by exists [].
  - cbn. destruct (f x) as [b|]; [|done]. cbn.
    destruct (mapM f l) as [k0|]; [|done]. cbn. intros [= <-].
    destruct (IH k0 eq_refl) as (k' & -> & HP'). cbn.
    exists (b :: k'). split; [done|]. by constructor.
  - cbn. destruct (f y) as [b|], (f x) as [a|], (mapM f l) as [k0|]; cbn; try done.
    intros [= <-]. eexists; split; [done|]. apply perm_swap.
  - intros H. destruct (IH1 _ H) as (k1 & H1 & P1).
    destruct (IH2 _ H1) as (k2 & H2 & P2). exists k2. split; [done|]. by etrans.
Qed.

Lemma mapM_lookup_seq {A} (l : list A) (m n : nat) :
  (m + n ≤ length l)%nat →
  mapM (λ i, l !! i) (seq m n) = Some (take n (drop m l)).
Proof.
  revert m. induction n as [|n IH]; intros m Hn; [done|].
  cbn [seq mapM].
  destruct (lookup_lt_is_Some_2 l m) as [x Hx]; [lia|].
  rewrite Hx. cbn [mbind option_bind]. rewrite IH by lia.
  cbn [mbind option_bind mret option_ret].
  by rewrite (drop_S _ _ _ Hx).
Qed.

Section top210_short.
Context {Img : Type}.
Variable argsort : list Q → list nat.
Hypothesis argsort_ok : is_argsort argsort.

(** With at most 210 scores the slice [[:210]] keeps the whole order. *)
Lemma inds_few (scores : list Q) :
  (length scores ≤ 210)%nat →
  take 210 (argsort (map Qopp scores)) = argsort (map Qopp scores).
Proof.
  intros Hn. apply take_ge.
  destruct (argsort_ok (map Qopp scores)) as [Hperm _].
  rewrite Hperm, length_seq, length_map. done.
Qed.

(** X22: for at most 210 scores, with an image and an actual ingredient
    list at every scored position, [top210] returns every scored image and
    its ingredient list once, by descending score: as many as there are
    scores, not 210. *)
Theorem top210_few (imgs : list Img) (ingredients : list (list string))
    (scores : list Q) :
  (length scores ≤ 210)%nat →
  (length scores ≤ length imgs)%nat →
  (length scores ≤ length ingredients)%nat →
  ∃ inds imgs210 a_ings,
    top210 argsort imgs ingredients scores = Some (imgs210, a_ings) ∧
    inds ≡ₚ seq 0 (length scores) ∧
    Sorted (score_desc scores) inds ∧
    Forall2 (λ i x, imgs !! i = Some x) inds imgs210 ∧
    Forall2 (λ i a, ingredients !! i = Some a) inds a_ings ∧
    imgs210 ≡ₚ take (length scores) imgs ∧
    a_ings ≡ₚ take (length scores) ingredients.
Proof.
  intros Hn Himgs Hings.
  destruct (argsort_ok (map Qopp scores)) as [Hperm0 _].
  rewrite length_map in Hperm0.
  assert (StronglySorted (score_desc scores) (argsort (map Qopp scores))) as Hsorted.
  { destruct (argsort_ok (map Qopp scores)) as [_ Hs].
    apply Sorted_StronglySorted in Hs; [|apply _].
    apply StronglySorted_fmap_inv in Hs.
    eapply StronglySorted_weaken; [|exact Hs].
    intros i j. cbn beta. rewrite !nth_negated. unfold score_desc. lra. }
  unfold top210. rewrite (inds_few scores Hn).
  set (inds := argsort (map Qopp scores)) in *.
  assert (∀ {A} (l : list A), (length scores ≤ length l)%nat →
            ∃ xs, mapM (λ i, l !! i) inds = Some xs ∧
                  Forall2 (λ i x, l !! i = Some x) inds xs ∧
                  xs ≡ₚ take (length scores) l) as Hsel.
  { intros A l Hl.
    pose proof (mapM_lookup_seq l 0 (length scores) Hl) as Hseq.
    rewrite drop_0 in Hseq. symmetry in Hperm0.
    destruct (mapM_Permutation _ _ _ _ Hperm0 Hseq) as (xs & Hxs & HP).
    exists xs. split_and!; [done|by apply mapM_Some_1|done]. }
  destruct (Hsel _ imgs Himgs) as (imgs210 & E1 & F1 & P1).
  destruct (Hsel _ ingredients Hings) as (a_ings & E2 & F2 & P2).
  destruct (Hsel _ scores (le_n _)) as (ss & E3 & _ & _).
  exists inds, imgs210, a_ings. rewrite E1, E2, E3.
  split_and!; try done. by apply StronglySorted_Sorted.
Qed.

(** X23: for at most 210 scores, [top210] raises [IndexError] when there
    are fewer images, or fewer actual ingredient lists, than scores. *)
Theorem top210_few_raises (imgs : list Img) (ingredients : list (list string))
    (scores : list Q) :
  (length scores ≤ 210)%nat →
  (length imgs < length scores)%nat ∨ (length ingredients < length scores)%nat →
  top210 argsort imgs ingredients scores = None.
Proof.
  intros Hn Hshort.
  destruct (argsort_ok (map Qopp scores)) as [Hperm _].
  rewrite length_map in Hperm.
  unfold top210. rewrite (inds_few scores Hn).
  set (inds := argsort (map Qopp scores)) in *.
  assert (∀ {A} (l : list A), (length l < length scores)%nat →
            mapM (λ i, l !! i) inds = None) as Hnone.
  { intros A l Hl. apply eq_None_not_Some. intros Hs%mapM_is_Some_1.
    rewrite Forall_forall in Hs.
    destruct (Hs (length l)) as [x Hx].
    - rewrite Hperm. apply elem_of_seq. lia.
    - apply lookup_lt_Some in Hx. lia. }
  destruct (mapM (λ i, imgs !! i) inds) as [imgs210|] eqn:E1; [|done].
  cbn [mbind option_bind].
  destruct Hshort as [H|H].
  - by rewrite (Hnone _ imgs H) in E1.
  - by rewrite (Hnone _ ingredients H).
Qed.

End top210_short.

Lemma top210_few_witness :
  ∃ inds imgs210 a_ings,
    top210 stable_argsort [10; 20; 30]%nat [["salt"]; ["tea"]; ["milk"]]
           [(1 # 2)%Q; 1%Q; 0%Q] = Some (imgs210, a_ings) ∧
    inds ≡ₚ seq 0 (length [(1 # 2)%Q; 1%Q; 0%Q]) ∧
    Sorted (score_desc [(1 # 2)%Q; 1%Q; 0%Q]) inds ∧
    Forall2 (λ i x, [10; 20; 30]%nat !! i = Some x) inds imgs210 ∧
    Forall2 (λ i a, [["salt"]; ["tea"]; ["milk"]] !! i = Some a) inds a_ings ∧
    imgs210 ≡ₚ take (length [(1 # 2)%Q; 1%Q; 0%Q]) [10; 20; 30]%nat ∧
    a_ings ≡ₚ take (length [(1 # 2)%Q; 1%Q; 0%Q]) [["salt"]; ["tea"]; ["milk"]].
Proof.
  apply (top210_few stable_argsort stable_argsort_ok
           [10; 20; 30]%nat [["salt"]; ["tea"]; ["milk"]] [(1 # 2)%Q; 1%Q; 0%Q]);
    vm_compute; lia.
Defined.

Lemma top210_few_raises_witness :
  top210 stable_argsort [10; 20]%nat [["salt"]; ["tea"]; ["milk"]]
         [(1 # 2)%Q; 1%Q; 0%Q] = None.
Proof.
  apply (top210_few_raises stable_argsort stable_argsort_ok
           [10; 20]%nat [["salt"]; ["tea"]; ["milk"]] [(1 # 2)%Q; 1%Q; 0%Q]).
  - vm_compute. lia.
  - left. vm_compute. lia.
Defined.

(** ** Running the three engines *)

Lemma truediv_inv (x : Q) (y : Z) (v : Q) :
  truediv x (inject_Z y) = Some v → y ≠ 0 ∧ v = (x / inject_Z y)%Q.
Proof.
  unfold truediv. destruct (Qeq_bool (inject_Z y) 0) eqn:E; [done|].
  intros [= <-]. split; [|done]. by intros ->.
Qed.

Lemma clean_all_shape (texts cleaned : list (list string)) :
  clean_all texts = Some cleaned →
  length cleaned = length texts ∧
  Forall (λ d, strictly_ascending d ∧ Forall cleaned_token d) cleaned.
Proof.
  intros H. split; [symmetry; by eapply length_mapM|].
  apply mapM_Some_1 in H.
  induction H as [|text d texts cleaned Hd _ IH]; constructor; [|done].
  destruct (clean_text_shape _ _ _ Hd) as [ws ->].
  destruct (spec_sorted_distinct_invariant ws) as (? & _ & ?). done.
Qed.

(** X24: when [run_all] returns, [n] is not 0, the three times are the
    elapsed seconds divided by [n], and each of the three engines has one
    list per image, in strictly ascending order and of cleaned tokens
    only. *)
Theorem run_all_shape {Img : Type}
    (pytess : Img → option (list string))
    (rekogn textract : Img → option (list (gmap string string)))
    (p_elapsed r_elapsed t_elapsed : Z) (imgs : list Img) (n : Z)
    (detections : list (list (list string))) (times : list Q) :
  run_all pytess rekogn textract (p_elapsed, r_elapsed, t_elapsed) imgs n
    = Some (detections, times) →
  n ≠ 0 ∧
  times = [(inject_Z p_elapsed / inject_Z n)%Q; (inject_Z r_elapsed / inject_Z n)%Q;
           (inject_Z t_elapsed / inject_Z n)%Q] ∧
  length detections = 3%nat ∧
  Forall (λ engine, length engine = length imgs ∧
                    Forall (λ d, strictly_ascending d ∧ Forall cleaned_token d) engine)
         detections.
Proof.
  unfold run_all.
  destruct (mapM pytess imgs) as [p_texts|] eqn:Ep; [|done]. cbn [mbind option_bind].
  destruct (truediv (inject_Z p_elapsed) _) as [p_time|] eqn:Tp; [|done].
  cbn [mbind option_bind].
  destruct (clean_all p_texts) as [p_ings|] eqn:Cp; [|done]. cbn [mbind option_bind].
  destruct (mapM rekogn imgs) as [r_texts|] eqn:Er; [|done]. cbn [mbind option_bind].
  destruct (truediv (inject_Z r_elapsed) _) as [r_time|] eqn:Tr; [|done].
  cbn [mbind option_bind].
  destruct (mapM (words "Type" "DetectedText") r_texts) as [r_words|] eqn:Wr; [|done].
  cbn [mbind option_bind].
  destruct (clean_all r_words) as [r_ings|] eqn:Cr; [|done]. cbn [mbind option_bind].
  destruct (mapM textract imgs) as [t_texts|] eqn:Et; [|done]. cbn [mbind option_bind].
  destruct (truediv (inject_Z t_elapsed) _) as [t_time|] eqn:Tt; [|done].
  cbn [mbind option_bind].
  destruct (mapM (words "BlockType" "Text") t_texts) as [t_words|] eqn:Wt; [|done].
  cbn [mbind option_bind].
  destruct (clean_all t_words) as [t_ings|] eqn:Ct; [|done]. cbn [mbind option_bind].
  intros [= <- <-].
  apply truediv_inv in Tp as [Hn ->]. apply truediv_inv in Tr as [_ ->].
  apply truediv_inv in Tt as [_ ->].
  apply clean_all_shape in Cp as [Lp Fp]. apply clean_all_shape in Cr as [Lr Fr].
  apply clean_all_shape in Ct as [Lt Ft].
  apply length_mapM in Ep, Er, Wr, Et, Wt.
  split_and!; [done..|].
  repeat constructor; try done; congruence.
Qed.

Lemma run_all_shape_witness :
  2 ≠ 0 ∧
  [(3 # 2)%Q; (4 # 2)%Q; (5 # 2)%Q]
  = [(inject_Z 3 / inject_Z 2)%Q; (inject_Z 4 / inject_Z 2)%Q;
     (inject_Z 5 / inject_Z 2)%Q] ∧
  length [[["salt"]; ["salt"]]; [["tea"]; ["tea"]]; [[]; []]] = 3%nat ∧
  Forall (λ engine, length engine = length [1; 2]%nat ∧
                    Forall (λ d, strictly_ascending d ∧ Forall cleaned_token d) engine)
         [[["salt"]; ["salt"]]; [["tea"]; ["tea"]]; [[]; []]].
Proof.
  apply (run_all_shape
           (λ _ : nat, Some ["Salt"; "2%"])
           (λ _ : nat, Some [ {[ "Type" := "LINE"; "DetectedText" := "Tea 5" ]};
                              {[ "Type" := "WORD"; "DetectedText" := "Tea" ]} ])
           (λ _ : nat, Some [])
           3 4 5 [1; 2]%nat 2
           [[["salt"]; ["salt"]]; [["tea"]; ["tea"]]; [[]; []]]
           [(3 # 2)%Q; (4 # 2)%Q; (5 # 2)%Q]).
  vm_compute. reflexivity.
Defined.

(** ** Products without a written ingredient *)







